(** * Gemini Image Editor: the controller, the codec and canvas utilities
      and the edit request client, embedded from the TypeScript sources.

    Conventions of the embedding.
    - A JavaScript number is an IEEE 754 binary64 value: [number] is the
      Standard Library's [spec_float], with the operations instantiated at
      precision 53 and maximal exponent 1024.
    - A JavaScript string is a [string]; a character stands for a code unit
      of the Latin-1 range.
    - [T | null] and [T | undefined] are [option T].
    - An asynchronous function is a computation that logs the effects it
      performs (calls of platform primitives, calls of sibling utilities,
      React state setters) and ends resolved or rejected.  What the platform
      answers (file reader, image decoder, canvas, remote API, environment)
      is read from a [Platform] record. *)

From Stdlib Require Import ZArith Bool List Ascii String Lia.
From Stdlib Require Import Floats.SpecFloat.
Import ListNotations.

Open Scope string_scope.
Open Scope Z_scope.

(* ================================================================= *)
(** ** JavaScript numbers *)

Module JS.

Definition prec : Z := 53.
Definition emax : Z := 1024.

Definition number : Type := spec_float.

Definition of_Z (z : Z) : number := binary_normalize prec emax z 0 false.

Definition NaN : number := S754_nan.

Definition mul (x y : number) : number := SFmul prec emax x y.
Definition div (x y : number) : number := SFdiv prec emax x y.

(** [x === y] and [x !== y] on numbers: NaN differs from everything,
    the two zeros are equal. *)
Definition strict_eq (x y : number) : bool := SFeqb x y.
Definition strict_neq (x y : number) : bool := negb (SFeqb x y).

(** [x > y]. *)
Definition gt (x y : number) : bool := SFltb y x.

(** Truthiness of a number: false for NaN and for both zeros. *)
Definition truthy_num (x : number) : bool :=
  match x with
  | S754_zero _ | S754_nan => false
  | _ => true
  end.

(** [x || d] on numbers. *)
Definition or_num (x d : number) : number := if truthy_num x then x else d.

(** [Math.round]: the integer nearest to [x], ties towards plus infinity;
    infinities, NaN and zeros are returned unchanged, and a result that
    rounds to zero keeps the sign of [x]. *)
Definition Math_round (x : number) : number :=
  match x with
  | S754_finite s m e =>
      if 0 <=? e then x
      else
        let q := 2 ^ (- e) in
        let sm := if s then Z.neg m else Z.pos m in
        binary_normalize prec emax ((2 * sm + q) / (2 * q)) 0 s
  | _ => x
  end.

(** Truthiness of a string or of a nullable string. *)
Definition truthy_str (s : string) : bool :=
  match s with EmptyString => false | _ => true end.

Definition truthy (o : option string) : bool :=
  match o with Some s => truthy_str s | None => false end.

(** White space and line terminators of the Latin-1 range, as
    [String.prototype.trim] sees them. *)
Definition is_white_space (c : ascii) : bool :=
  let n := nat_of_ascii c in
  (Nat.leb 9 n && Nat.leb n 13)%bool || Nat.eqb n 32 || Nat.eqb n 160.

(** Line terminators, which [.] of a regular expression does not match. *)
Definition is_line_terminator (c : ascii) : bool :=
  let n := nat_of_ascii c in Nat.eqb n 10 || Nat.eqb n 13.

Fixpoint trimStart (s : string) : string :=
  match s with
  | String c r => if is_white_space c then trimStart r else s
  | EmptyString => EmptyString
  end.

Fixpoint trimEnd (s : string) : string :=
  match s with
  | String c r =>
      match trimEnd r with
      | EmptyString => if is_white_space c then EmptyString else String c EmptyString
      | r' => String c r'
      end
  | EmptyString => EmptyString
  end.

Definition trim (s : string) : string := trimEnd (trimStart s).

(** [s.split(c)] for a one character separator: never the empty list. *)
Fixpoint split (c : ascii) (s : string) : list string :=
  match s with
  | EmptyString => [EmptyString]
  | String a r =>
      if Ascii.eqb a c then EmptyString :: split c r
      else match split c r with
           | h :: t => String a h :: t
           | [] => [String a EmptyString]
           end
  end.

(** [s.startsWith(p)]. *)
Fixpoint startsWith (s p : string) {struct p} : bool :=
  match p, s with
  | EmptyString, _ => true
  | String b p', String a s' => Ascii.eqb a b && startsWith s' p'
  | String _ _, EmptyString => false
  end.

(** [s.substring(n)]. *)
Fixpoint drop (n : nat) (s : string) : string :=
  match n, s with
  | O, _ => s
  | S n', String _ r => drop n' r
  | S _, EmptyString => EmptyString
  end.

(** A template literal prints an undefined value as [undefined]. *)
Definition template (o : option string) : string :=
  match o with Some s => s | None => "undefined" end.

End JS.

Import JS.

(* ================================================================= *)
(** ** Effects: platform, thrown values, logged computations *)

(** A value that is thrown or that a promise is rejected with: an [Error]
    carrying its message, or a value that is no [Error] and has no
    [message] (the [ProgressEvent] of a failed file read, or whatever the
    SDK rejects with). *)
Inductive Thrown : Type :=
| ErrorObj (message : string)
| NonError.

(** [err.message || d]. *)
Definition message_or (err : Thrown) (d : string) : string :=
  match err with
  | ErrorObj m => if truthy_str m then m else d
  | NonError => d
  end.

(** [Part] of the SDK, as this program builds and reads it: an optional
    [inlineData] whose two fields may be undefined in a response. *)
Record InlineData : Type := { data : option string; mimeType : option string }.
Record Part : Type := { inlineData : option InlineData; text : option string }.

Definition inlinePart (d m : string) : Part :=
  {| inlineData := Some {| data := Some d; mimeType := Some m |}; text := None |}.

Definition textPart (t : string) : Part :=
  {| inlineData := None; text := Some t |}.

(** A [File]: its declared type; the bytes are reached through the reader. *)
Record File : Type := { file_name : string; file_type : string }.

(** An off-screen canvas after the drawing calls of the utilities. *)
Record Canvas : Type := {
  canvas_width : number;
  canvas_height : number;
  canvas_filter : option string;
  canvas_source : string;
  canvas_dest : option (number * number)
}.

(** What [ai.models.generateContent] settles with; a response is reduced to
    [response.candidates?.[0]?.content?.parts || []]. *)
Inductive ApiOutcome : Type :=
| ApiRejects (err : Thrown)
| ApiResponds (parts : list Part).

Record Platform : Type := {
  API_KEY : option string;
  (** [FileReader.readAsDataURL]: the result at [onload], [None] at [onerror]. *)
  readAsDataURL : File -> option string;
  (** [new Image()] with [src] set: the dimensions at [onload], [None] at
      [onerror]. *)
  loadImage : string -> option (number * number);
  (** whether [canvas.getContext('2d')] is non-null for a canvas of that size. *)
  getContext2d : number -> number -> bool;
  toDataURL : Canvas -> string -> string;
  generateContent : Part -> string -> ApiOutcome
}.

(** React state setters of the controller. *)
Inductive SetCall : Type :=
| SetEditedImage (v : option string)
| SetFinalImage (v : option string)
| SetIsLoading (b : bool)
| SetIsEnhancing (b : bool)
| SetError (v : option string).

Inductive Event : Type :=
| NewGoogleGenAI (apiKey : string)
| CallGenerateContent (image : Part) (prompt : string)
| CallReadAsDataURL (f : File)
| CallResizeImage (imageUrl : string) (newWidth newHeight : number)
| CallApplyCanvasFilter (imageUrl : string) (filter : string)
| CallToDataURL (c : Canvas) (mime : string)
| ConsoleError
| Set_ (c : SetCall).

Inductive Outcome (A : Type) : Type :=
| Resolved (a : A)
| Rejected (err : Thrown).
Arguments Resolved {A} a.
Arguments Rejected {A} err.

(** A (possibly asynchronous) computation: the effects in order, and how it
    settles. *)
Definition Eff (A : Type) : Type := (list Event * Outcome A)%type.

Definition ret {A} (a : A) : Eff A := ([], Resolved a).
Definition throw {A} (err : Thrown) : Eff A := ([], Rejected err).
Definition emit (e : Event) : Eff unit := ([e], Resolved tt).

Definition bind {A B} (m : Eff A) (k : A -> Eff B) : Eff B :=
  match m with
  | (t, Resolved a) => let '(t', r) := k a in ((t ++ t')%list, r)
  | (t, Rejected err) => (t, Rejected err)
  end.

(** [try { m } catch (err) { h err }]. *)
Definition try_catch {A} (m : Eff A) (h : Thrown -> Eff A) : Eff A :=
  match m with
  | (t, Rejected err) => let '(t', r) := h err in ((t ++ t')%list, r)
  | _ => m
  end.

(** [try { m } finally { f }], for an [f] that does not throw. *)
Definition finally {A} (m : Eff A) (f : list Event) : Eff A :=
  ((fst m ++ f)%list, snd m).

Declare Scope eff_scope.
Delimit Scope eff_scope with eff.
Notation "x <- m ;; k" := (bind m (fun x => k))
  (at level 61, m at next level, right associativity) : eff_scope.
Notation "m ;;; k" := (bind m (fun _ => k))
  (at level 61, right associativity) : eff_scope.
Open Scope eff_scope.

Definition trace {A} (m : Eff A) : list Event := fst m.
Definition outcome {A} (m : Eff A) : Outcome A := snd m.

(* ================================================================= *)
(** ** Image codec utilities (utils/fileUtils.ts) *)

(** The capture of [.*?] followed by [;] at the head of [s]. *)
Fixpoint lazy_dot_semicolon (s : string) : option string :=
  match s with
  | EmptyString => None
  | String c r =>
      if Ascii.eqb c ";" then Some EmptyString
      else if is_line_terminator c then None
      else option_map (String c) (lazy_dot_semicolon r)
  end.

(** The capture of [[^;]+] followed by [;] at the head of [s]. *)
Fixpoint not_semicolon_plus (s : string) : option string :=
  match s with
  | EmptyString => None
  | String c r =>
      if Ascii.eqb c ";" then None
      else match r with
           | String c' _ =>
               if Ascii.eqb c' ";" then Some (String c EmptyString)
               else option_map (String c) (not_semicolon_plus r)
           | EmptyString => None
           end
  end.

(** [s.match(/data:GROUP;/)?.[1]]: the capture at the leftmost position
    where the expression matches. *)
Fixpoint match_data (group : string -> option string) (s : string)
  : option string :=
  match s with
  | EmptyString => None
  | String _ r =>
      if startsWith s "data:" then
        match group (drop 5 s) with
        | Some g => Some g
        | None => match_data group r
        end
      else match_data group r
  end.

(** [xs[1]]. *)
Definition index1 (xs : list string) : option string := nth_error xs 1.

Definition fileToGenerativePart (P : Platform) (file : File) : Eff Part :=
  emit (CallReadAsDataURL file) ;;;
  match readAsDataURL P file with
  | Some dataUrl =>
      let base64Data := index1 (split "," dataUrl) in
      if truthy base64Data then
        ret {| inlineData := Some {| data := base64Data;
                                     mimeType := Some (file_type file) |};
               text := None |}
      else throw (ErrorObj "Failed to read file as base64.")
  | None => throw NonError
  end.

Definition dataUrlToGenerativePart (dataUrl : string) : Eff Part :=
  let mimeType :=
    match match_data lazy_dot_semicolon dataUrl with
    | Some m => m
    | None => "image/png"
    end in
  let base64Data := index1 (split "," dataUrl) in
  if negb (truthy base64Data) then
    throw (ErrorObj "Invalid data URL for conversion.")
  else
    ret {| inlineData := Some {| data := base64Data; mimeType := Some mimeType |};
           text := None |}.

(* ================================================================= *)
(** ** Canvas transform utilities (utils/imageUtils.ts) *)

Definition canvas_mime (imageUrl : string) : string :=
  if startsWith imageUrl "data:image/jpeg" then "image/jpeg" else "image/png".

(** The canvas of [resizeImage] after [drawImage]. *)
Definition resizeCanvas (imageUrl : string) (newWidth newHeight : number) : Canvas :=
  {| canvas_width := newWidth; canvas_height := newHeight;
     canvas_filter := None; canvas_source := imageUrl;
     canvas_dest := Some (newWidth, newHeight) |}.

(** The canvas of [applyCanvasFilter] after [drawImage]. *)
Definition filterCanvas (imageUrl filter : string) (w h : number) : Canvas :=
  {| canvas_width := w; canvas_height := h; canvas_filter := Some filter;
     canvas_source := imageUrl; canvas_dest := None |}.

Definition resizeImage (P : Platform) (imageUrl : string)
    (newWidth newHeight : number) : Eff string :=
  match loadImage P imageUrl with
  | Some _ =>
      if negb (getContext2d P newWidth newHeight) then
        throw (ErrorObj "Could not get canvas context")
      else
        let canvas := resizeCanvas imageUrl newWidth newHeight in
        let mimeType := canvas_mime imageUrl in
        emit (CallToDataURL canvas mimeType) ;;;
        ret (toDataURL P canvas mimeType)
  | None =>
      emit ConsoleError ;;;
      throw (ErrorObj "Failed to load image for resizing.")
  end.

Definition applyCanvasFilter (P : Platform) (imageUrl filter : string)
  : Eff string :=
  match loadImage P imageUrl with
  | Some (w, h) =>
      if negb (getContext2d P w h) then
        throw (ErrorObj "Could not get canvas context")
      else
        let canvas := filterCanvas imageUrl filter w h in
        let mimeType := canvas_mime imageUrl in
        emit (CallToDataURL canvas mimeType) ;;;
        ret (toDataURL P canvas mimeType)
  | None =>
      emit ConsoleError ;;;
      throw (ErrorObj "Failed to load image for applying filter.")
  end.

(* ================================================================= *)
(** ** Edit request client (services/geminiService.ts) *)

(** The loop over the response parts: the first part with [inlineData]. *)
Fixpoint first_inline_image (parts : list Part) : option string :=
  match parts with
  | [] => None
  | part :: rest =>
      match inlineData part with
      | Some i =>
          Some ("data:" ++ template (mimeType i) ++ ";base64," ++ template (data i))
      | None => first_inline_image rest
      end
  end.

Definition editImageWithGemini (P : Platform) (imagePart : Part)
    (prompt : string) : Eff (option string) :=
  let apiKey := API_KEY P in
  if negb (truthy apiKey) then
    throw (ErrorObj
      "API key is not configured. Please set the API_KEY environment variable.")
  else
    emit (NewGoogleGenAI (template apiKey)) ;;;
    try_catch
      (emit (CallGenerateContent imagePart prompt) ;;;
       match generateContent P imagePart prompt with
       | ApiResponds parts => ret (first_inline_image parts)
       | ApiRejects err => throw err
       end)
      (fun error =>
         emit ConsoleError ;;;
         match error with
         | ErrorObj m => throw (ErrorObj ("Gemini API Error: " ++ m))
         | NonError =>
             throw (ErrorObj
               "An unknown error occurred while contacting the Gemini API.")
         end).

(* ================================================================= *)
(** ** Application controller (App.tsx): state *)

Inductive ResizeMode : Type := mode_percentage | mode_dimensions.

Record Dimensions : Type := { d_width : number; d_height : number }.

Record PixelCrop : Type := {
  x : number; y : number; c_width : number; c_height : number
}.

Definition crop_dimensions (c : PixelCrop) : Dimensions :=
  {| d_width := c_width c; d_height := c_height c |}.

Record ResizeOptions : Type := {
  mode : ResizeMode;
  percentage : number;
  width : number;
  height : number;
  isAspectRatioLocked : bool
}.

Record AppState : Type := {
  originalImage : option File;
  prompt : string;
  editedImage : option string;
  finalImage : option string;
  isLoading : bool;
  isEnhancing : bool;
  error : option string;
  isCropModalOpen : bool;
  crop : option PixelCrop;
  completedCrop : option PixelCrop;
  croppedImageUrl : option string;
  originalDimensions : option Dimensions;
  resizeOptions : ResizeOptions;
  contrast : number
}.

Definition initialResizeOptions : ResizeOptions :=
  {| mode := mode_percentage; percentage := of_Z 100; width := of_Z 0;
     height := of_Z 0; isAspectRatioLocked := true |}.

(** The state of the first render: the arguments of the [useState] calls. *)
Definition initialState : AppState :=
  {| originalImage := None; prompt := ""; editedImage := None;
     finalImage := None; isLoading := false; isEnhancing := false;
     error := None; isCropModalOpen := false; crop := None;
     completedCrop := None; croppedImageUrl := None;
     originalDimensions := None; resizeOptions := initialResizeOptions;
     contrast := of_Z 100 |}.

Definition set_originalImage (v : option File) (s : AppState) : AppState :=
  {| originalImage := v; prompt := prompt s; editedImage := editedImage s;
     finalImage := finalImage s; isLoading := isLoading s; isEnhancing :=
     isEnhancing s; error := error s; isCropModalOpen := isCropModalOpen s;
     crop := crop s; completedCrop := completedCrop s; croppedImageUrl :=
     croppedImageUrl s; originalDimensions := originalDimensions s;
     resizeOptions := resizeOptions s; contrast := contrast s |}.
Definition set_prompt (v : string) (s : AppState) : AppState :=
  {| originalImage := originalImage s; prompt := v; editedImage := editedImage
     s; finalImage := finalImage s; isLoading := isLoading s; isEnhancing :=
     isEnhancing s; error := error s; isCropModalOpen := isCropModalOpen s;
     crop := crop s; completedCrop := completedCrop s; croppedImageUrl :=
     croppedImageUrl s; originalDimensions := originalDimensions s;
     resizeOptions := resizeOptions s; contrast := contrast s |}.
Definition set_editedImage (v : option string) (s : AppState) : AppState :=
  {| originalImage := originalImage s; prompt := prompt s; editedImage := v;
     finalImage := finalImage s; isLoading := isLoading s; isEnhancing :=
     isEnhancing s; error := error s; isCropModalOpen := isCropModalOpen s;
     crop := crop s; completedCrop := completedCrop s; croppedImageUrl :=
     croppedImageUrl s; originalDimensions := originalDimensions s;
     resizeOptions := resizeOptions s; contrast := contrast s |}.
Definition set_finalImage (v : option string) (s : AppState) : AppState :=
  {| originalImage := originalImage s; prompt := prompt s; editedImage :=
     editedImage s; finalImage := v; isLoading := isLoading s; isEnhancing :=
     isEnhancing s; error := error s; isCropModalOpen := isCropModalOpen s;
     crop := crop s; completedCrop := completedCrop s; croppedImageUrl :=
     croppedImageUrl s; originalDimensions := originalDimensions s;
     resizeOptions := resizeOptions s; contrast := contrast s |}.
Definition set_isLoading (v : bool) (s : AppState) : AppState :=
  {| originalImage := originalImage s; prompt := prompt s; editedImage :=
     editedImage s; finalImage := finalImage s; isLoading := v; isEnhancing :=
     isEnhancing s; error := error s; isCropModalOpen := isCropModalOpen s;
     crop := crop s; completedCrop := completedCrop s; croppedImageUrl :=
     croppedImageUrl s; originalDimensions := originalDimensions s;
     resizeOptions := resizeOptions s; contrast := contrast s |}.
Definition set_isEnhancing (v : bool) (s : AppState) : AppState :=
  {| originalImage := originalImage s; prompt := prompt s; editedImage :=
     editedImage s; finalImage := finalImage s; isLoading := isLoading s;
     isEnhancing := v; error := error s; isCropModalOpen := isCropModalOpen s;
     crop := crop s; completedCrop := completedCrop s; croppedImageUrl :=
     croppedImageUrl s; originalDimensions := originalDimensions s;
     resizeOptions := resizeOptions s; contrast := contrast s |}.
Definition set_error (v : option string) (s : AppState) : AppState :=
  {| originalImage := originalImage s; prompt := prompt s; editedImage :=
     editedImage s; finalImage := finalImage s; isLoading := isLoading s;
     isEnhancing := isEnhancing s; error := v; isCropModalOpen :=
     isCropModalOpen s; crop := crop s; completedCrop := completedCrop s;
     croppedImageUrl := croppedImageUrl s; originalDimensions :=
     originalDimensions s; resizeOptions := resizeOptions s; contrast :=
     contrast s |}.
Definition set_isCropModalOpen (v : bool) (s : AppState) : AppState :=
  {| originalImage := originalImage s; prompt := prompt s; editedImage :=
     editedImage s; finalImage := finalImage s; isLoading := isLoading s;
     isEnhancing := isEnhancing s; error := error s; isCropModalOpen := v;
     crop := crop s; completedCrop := completedCrop s; croppedImageUrl :=
     croppedImageUrl s; originalDimensions := originalDimensions s;
     resizeOptions := resizeOptions s; contrast := contrast s |}.
Definition set_crop (v : option PixelCrop) (s : AppState) : AppState :=
  {| originalImage := originalImage s; prompt := prompt s; editedImage :=
     editedImage s; finalImage := finalImage s; isLoading := isLoading s;
     isEnhancing := isEnhancing s; error := error s; isCropModalOpen :=
     isCropModalOpen s; crop := v; completedCrop := completedCrop s;
     croppedImageUrl := croppedImageUrl s; originalDimensions :=
     originalDimensions s; resizeOptions := resizeOptions s; contrast :=
     contrast s |}.
Definition set_completedCrop (v : option PixelCrop) (s : AppState) : AppState
     :=
  {| originalImage := originalImage s; prompt := prompt s; editedImage :=
     editedImage s; finalImage := finalImage s; isLoading := isLoading s;
     isEnhancing := isEnhancing s; error := error s; isCropModalOpen :=
     isCropModalOpen s; crop := crop s; completedCrop := v; croppedImageUrl :=
     croppedImageUrl s; originalDimensions := originalDimensions s;
     resizeOptions := resizeOptions s; contrast := contrast s |}.
Definition set_croppedImageUrl (v : option string) (s : AppState) : AppState
     :=
  {| originalImage := originalImage s; prompt := prompt s; editedImage :=
     editedImage s; finalImage := finalImage s; isLoading := isLoading s;
     isEnhancing := isEnhancing s; error := error s; isCropModalOpen :=
     isCropModalOpen s; crop := crop s; completedCrop := completedCrop s;
     croppedImageUrl := v; originalDimensions := originalDimensions s;
     resizeOptions := resizeOptions s; contrast := contrast s |}.
Definition set_originalDimensions (v : option Dimensions) (s : AppState) :
     AppState :=
  {| originalImage := originalImage s; prompt := prompt s; editedImage :=
     editedImage s; finalImage := finalImage s; isLoading := isLoading s;
     isEnhancing := isEnhancing s; error := error s; isCropModalOpen :=
     isCropModalOpen s; crop := crop s; completedCrop := completedCrop s;
     croppedImageUrl := croppedImageUrl s; originalDimensions := v;
     resizeOptions := resizeOptions s; contrast := contrast s |}.
Definition set_resizeOptions (v : ResizeOptions) (s : AppState) : AppState :=
  {| originalImage := originalImage s; prompt := prompt s; editedImage :=
     editedImage s; finalImage := finalImage s; isLoading := isLoading s;
     isEnhancing := isEnhancing s; error := error s; isCropModalOpen :=
     isCropModalOpen s; crop := crop s; completedCrop := completedCrop s;
     croppedImageUrl := croppedImageUrl s; originalDimensions :=
     originalDimensions s; resizeOptions := v; contrast := contrast s |}.
Definition set_contrast (v : number) (s : AppState) : AppState :=
  {| originalImage := originalImage s; prompt := prompt s; editedImage :=
     editedImage s; finalImage := finalImage s; isLoading := isLoading s;
     isEnhancing := isEnhancing s; error := error s; isCropModalOpen :=
     isCropModalOpen s; crop := crop s; completedCrop := completedCrop s;
     croppedImageUrl := croppedImageUrl s; originalDimensions :=
     originalDimensions s; resizeOptions := resizeOptions s; contrast := v |}.

Definition apply_set (c : SetCall) (s : AppState) : AppState :=
  match c with
  | SetEditedImage v => set_editedImage v s
  | SetFinalImage v => set_finalImage v s
  | SetIsLoading b => set_isLoading b s
  | SetIsEnhancing b => set_isEnhancing b s
  | SetError v => set_error v s
  end.

(** The state after the setter calls of a log, in order. *)
Fixpoint run_sets (t : list Event) (s : AppState) : AppState :=
  match t with
  | [] => s
  | Set_ c :: t' => run_sets t' (apply_set c s)
  | _ :: t' => run_sets t' s
  end.

Definition isSome {A} (o : option A) : bool :=
  match o with Some _ => true | None => false end.

(* ================================================================= *)
(** ** Application controller: derived values and handlers *)

Definition sourceWidth (s : AppState) (od : Dimensions) : number :=
  match completedCrop s with Some c => c_width c | None => d_width od end.

Definition sourceHeight (s : AppState) (od : Dimensions) : number :=
  match completedCrop s with Some c => c_height c | None => d_height od end.

Definition isResizingNeeded (s : AppState) : bool :=
  match originalDimensions s with
  | None => false
  | Some od =>
      let o := resizeOptions s in
      match mode o with
      | mode_percentage => strict_neq (percentage o) (of_Z 100)
      | mode_dimensions =>
          strict_neq (width o) (sourceWidth s od)
          || strict_neq (height o) (sourceHeight s od)
      end
  end.

(** The target size computed by [processAndSetImage] when it considers a
    resize. *)
Definition targetSize (s : AppState) (od : Dimensions) : number * number :=
  let o := resizeOptions s in
  match mode o with
  | mode_percentage =>
      let scale := div (percentage o) (of_Z 100) in
      (Math_round (mul (sourceWidth s od) scale),
       Math_round (mul (sourceHeight s od) scale))
  | mode_dimensions => (width o, height o)
  end.

Definition processAndSetImage (P : Platform) (s : AppState)
    (imageUrl : string) : Eff unit :=
  match isResizingNeeded s, originalDimensions s with
  | true, Some od =>
      let '(targetWidth, targetHeight) := targetSize s od in
      if gt targetWidth (of_Z 0) && gt targetHeight (of_Z 0) then
        emit (CallResizeImage imageUrl targetWidth targetHeight) ;;;
        finalImageUrl <- resizeImage P imageUrl targetWidth targetHeight ;;
        emit (Set_ (SetEditedImage (Some finalImageUrl)))
      else emit (Set_ (SetEditedImage (Some imageUrl)))
  | _, _ => emit (Set_ (SetEditedImage (Some imageUrl)))
  end.

(** The image part both handlers send. *)
Definition requestImagePart (P : Platform) (s : AppState) : Eff Part :=
  match croppedImageUrl s, originalImage s with
  | Some u, o =>
      if truthy_str u then dataUrlToGenerativePart u
      else match o with
           | Some f => fileToGenerativePart P f
           | None => throw (ErrorObj "No image available to process.")
           end
  | None, Some f => fileToGenerativePart P f
  | None, None => throw (ErrorObj "No image available to process.")
  end.

Definition catch_to_error (err : Thrown) : Eff unit :=
  emit ConsoleError ;;;
  emit (Set_ (SetError (Some (message_or err "An unexpected error occurred.")))).

(** The statements of [handleGenerateClick] before its [try]: [false] when
    the guard returns early. *)
Definition handleGenerateClick_start (s : AppState) : Eff bool :=
  if (negb (isSome (originalImage s)) && negb (truthy (croppedImageUrl s)))
     || negb (truthy_str (trim (prompt s)))
  then
    emit (Set_ (SetError (Some "Please upload an image and enter a prompt."))) ;;;
    ret false
  else
    emit (Set_ (SetIsLoading true)) ;;;
    emit (Set_ (SetError None)) ;;;
    emit (Set_ (SetEditedImage None)) ;;;
    ret true.

(** The [try], [catch] and [finally] of [handleGenerateClick]; [s] is the
    state of the render whose closure the handler is. *)
Definition handleGenerateClick_request (P : Platform) (s : AppState) : Eff unit :=
  finally
    (try_catch
       (imagePart <- requestImagePart P s ;;
        editedImageUrl <- editImageWithGemini P imagePart (prompt s) ;;
        match editedImageUrl with
        | Some u =>
            if truthy_str u then processAndSetImage P s u
            else throw (ErrorObj
              "The API did not return an image. Please try a different prompt.")
        | None =>
            throw (ErrorObj
              "The API did not return an image. Please try a different prompt.")
        end)
       catch_to_error)
    [Set_ (SetIsLoading false)].

Definition handleGenerateClick (P : Platform) (s : AppState) : Eff unit :=
  go <- handleGenerateClick_start s ;;
  if go : bool then handleGenerateClick_request P s else ret tt.

Definition ENHANCE_PROMPT : string :=
  "Enhance the image quality, lighting, and colors to make it look professional and vibrant.".

Definition handleEnhanceClick_start (s : AppState) : Eff bool :=
  if negb (isSome (originalImage s)) && negb (truthy (croppedImageUrl s))
  then
    emit (Set_ (SetError (Some "Please upload an image first."))) ;;;
    ret false
  else
    emit (Set_ (SetIsEnhancing true)) ;;;
    emit (Set_ (SetError None)) ;;;
    emit (Set_ (SetEditedImage None)) ;;;
    ret true.

Definition handleEnhanceClick_request (P : Platform) (s : AppState) : Eff unit :=
  finally
    (try_catch
       (imagePart <- requestImagePart P s ;;
        editedImageUrl <- editImageWithGemini P imagePart ENHANCE_PROMPT ;;
        match editedImageUrl with
        | Some u =>
            if truthy_str u then processAndSetImage P s u
            else throw (ErrorObj
              "The API did not return an image. Please try again.")
        | None =>
            throw (ErrorObj "The API did not return an image. Please try again.")
        end)
       catch_to_error)
    [Set_ (SetIsEnhancing false)].

Definition handleEnhanceClick (P : Platform) (s : AppState) : Eff unit :=
  go <- handleEnhanceClick_start s ;;
  if go : bool then handleEnhanceClick_request P s else ret tt.

(** The state a complete, uninterrupted invocation leaves. *)
Definition after {A} (m : Eff A) (s : AppState) : AppState :=
  run_sets (trace m) s.

(** The adjustment effect on [editedImage] and [contrast].  [isMounted] is
    the value of the effect's flag when the awaited filter settles; when no
    filter is awaited the body runs within the effect itself, where the flag
    is still [true].  [number_to_string] is the conversion a template literal
    applies to a number. *)
Definition applyAdjustments (P : Platform) (number_to_string : number -> string)
    (editedImage : string) (contrast : number) (isMounted : bool) : Eff unit :=
  if strict_neq contrast (of_Z 100) then
    let filter := "contrast(" ++ number_to_string contrast ++ "%)" in
    try_catch
      (emit (CallApplyCanvasFilter editedImage filter) ;;;
       adjustedImage <- applyCanvasFilter P editedImage filter ;;
       if isMounted then emit (Set_ (SetFinalImage (Some adjustedImage)))
       else ret tt)
      (fun _ =>
         emit ConsoleError ;;;
         if isMounted then emit (Set_ (SetFinalImage (Some editedImage)))
         else ret tt)
  else emit (Set_ (SetFinalImage (Some editedImage))).

Definition adjustmentEffect (P : Platform) (number_to_string : number -> string)
    (s : AppState) (isMounted : bool) : Eff unit :=
  match editedImage s with
  | Some e =>
      if truthy_str e then
        applyAdjustments P number_to_string e (contrast s) isMounted
      else emit (Set_ (SetFinalImage None))
  | None => emit (Set_ (SetFinalImage None))
  end.

(** [handleDownload]: the extension of the file name. *)
Definition downloadExtension (finalImage : string) : string :=
  let mimeType :=
    match match_data not_semicolon_plus finalImage with
    | Some m => if truthy_str m then m else "image/png"
    | None => "image/png"
    end in
  match index1 (split "/" mimeType) with
  | Some sub =>
      if String.eqb sub "jpeg" then "jpg"
      else if truthy_str sub then sub else "png"
  | None => "png"
  end.

(** [handleDownload]: the [download] attribute of the link that is clicked,
    [None] when the handler returns at once. *)
Definition handleDownload (s : AppState) : option string :=
  match finalImage s with
  | Some u =>
      if truthy_str u then Some ("edited-image." ++ downloadExtension u)
      else None
  | None => None
  end.

(** Resize option handlers. *)
Definition sourceDims (s : AppState) : option Dimensions :=
  match completedCrop s with
  | Some c => Some (crop_dimensions c)
  | None => originalDimensions s
  end.

Definition withSize (o : ResizeOptions) (w h : number) : ResizeOptions :=
  {| mode := mode o; percentage := percentage o; width := w; height := h;
     isAspectRatioLocked := isAspectRatioLocked o |}.

Definition handleWidthChange (s : AppState) (valueAsNumber : number)
  : ResizeOptions :=
  let newWidth := or_num valueAsNumber (of_Z 0) in
  let prev := resizeOptions s in
  match sourceDims s with
  | Some d =>
      if isAspectRatioLocked prev then
        let aspectRatio := div (d_height d) (d_width d) in
        withSize prev newWidth (Math_round (mul newWidth aspectRatio))
      else withSize prev newWidth (height prev)
  | None => withSize prev newWidth (height prev)
  end.

Definition handleHeightChange (s : AppState) (valueAsNumber : number)
  : ResizeOptions :=
  let newHeight := or_num valueAsNumber (of_Z 0) in
  let prev := resizeOptions s in
  match sourceDims s with
  | Some d =>
      if isAspectRatioLocked prev then
        let aspectRatio := div (d_width d) (d_height d) in
        withSize prev (Math_round (mul newHeight aspectRatio)) newHeight
      else withSize prev (width prev) newHeight
  | None => withSize prev (width prev) newHeight
  end.

Definition handleResizeModeChange (s : AppState) (m : ResizeMode) : ResizeOptions :=
  let prev := resizeOptions s in
  {| mode := m; percentage := percentage prev; width := width prev;
     height := height prev; isAspectRatioLocked := isAspectRatioLocked prev |}.

Definition handlePercentageChange (s : AppState) (valueAsNumber : number)
  : ResizeOptions :=
  let prev := resizeOptions s in
  {| mode := mode prev; percentage := valueAsNumber; width := width prev;
     height := height prev; isAspectRatioLocked := isAspectRatioLocked prev |}.

Definition toggleAspectRatioLock (s : AppState) : ResizeOptions :=
  let prev := resizeOptions s in
  {| mode := mode prev; percentage := percentage prev; width := width prev;
     height := height prev;
     isAspectRatioLocked := negb (isAspectRatioLocked prev) |}.

(** The options after an image or a crop of size [w] by [h] is taken. *)
Definition resetSize (o : ResizeOptions) (w h : number) : ResizeOptions :=
  {| mode := mode o; percentage := of_Z 100; width := w; height := h;
     isAspectRatioLocked := isAspectRatioLocked o |}.

Definition handleImageChange (s : AppState) (file : option File) : AppState :=
  match file with
  | Some f =>
      set_contrast (of_Z 100)
        (set_completedCrop None
           (set_crop None
              (set_croppedImageUrl None
                 (set_error None
                    (set_editedImage None (set_originalImage (Some f) s))))))
  | None => s
  end.

(** [img.onload] of [handleImageChange]. *)
Definition handleImageChange_onload (s : AppState) (w h : number) : AppState :=
  set_resizeOptions (resetSize (resizeOptions s) w h)
    (set_originalDimensions (Some {| d_width := w; d_height := h |}) s).

(** [handleApplyCrop]; [drawn] is the data URL of the canvas, [None] when
    the image element or the 2D context is missing. *)
Definition handleApplyCrop (s : AppState) (drawn : option string) : AppState :=
  match completedCrop s, drawn with
  | Some c, Some url =>
      set_isCropModalOpen false
        (set_resizeOptions (resetSize (resizeOptions s) (c_width c) (c_height c))
           (set_originalDimensions (Some (crop_dimensions c))
              (set_croppedImageUrl (Some url) s)))
  | _, _ => s
  end.

Definition handleResetCrop (s : AppState) : AppState :=
  set_croppedImageUrl None s.

Definition handleResetCrop_onload (s : AppState) (w h : number) : AppState :=
  set_originalDimensions (Some {| d_width := w; d_height := h |}) s.

(* ================================================================= *)
(** ** The first controller (src/App.tsx): no crop, resize or adjustment *)

Module App_tsx.

Definition handleGenerateClick_start (s : AppState) : Eff bool :=
  if negb (isSome (originalImage s)) || negb (truthy_str (trim (prompt s)))
  then
    emit (Set_ (SetError (Some "Please upload an image and enter a prompt."))) ;;;
    ret false
  else
    emit (Set_ (SetIsLoading true)) ;;;
    emit (Set_ (SetError None)) ;;;
    emit (Set_ (SetEditedImage None)) ;;;
    ret true.

Definition handleGenerateClick_request (P : Platform) (s : AppState) : Eff unit :=
  finally
    (try_catch
       (imagePart <- match originalImage s with
                     | Some f => fileToGenerativePart P f
                     | None => (* excluded by the guard *)
                         throw (ErrorObj "TypeError")
                     end ;;
        editedImageUrl <- editImageWithGemini P imagePart (prompt s) ;;
        match editedImageUrl with
        | Some u =>
            if truthy_str u then emit (Set_ (SetEditedImage (Some u)))
            else throw (ErrorObj
              "The API did not return an image. Please try a different prompt.")
        | None =>
            throw (ErrorObj
              "The API did not return an image. Please try a different prompt.")
        end)
       catch_to_error)
    [Set_ (SetIsLoading false)].

Definition handleGenerateClick (P : Platform) (s : AppState) : Eff unit :=
  go <- handleGenerateClick_start s ;;
  if go : bool then handleGenerateClick_request P s else ret tt.

Definition handleDownload (s : AppState) : option string :=
  match editedImage s with
  | Some u =>
      if truthy_str u then Some ("edited-image." ++ downloadExtension u)
      else None
  | None => None
  end.

End App_tsx.

(* ================================================================= *)
(** ** The controller as a transition system

    A click runs the statements of a handler up to its [try]; the request
    it starts stays in flight, with the state of the render it was started
    from, until the platform settles it.  Other events of the page may come
    in between.  The two buttons are clickable only when their [disabled]
    attribute is false. *)

Inductive Request : Type :=
| GenerateRequest (closure : AppState)
| EnhanceRequest (closure : AppState).

Record Controller : Type := { state : AppState; inflight : list Request }.

Definition generateDisabled (s : AppState) : bool :=
  isLoading s || isEnhancing s || negb (isSome (originalImage s))
  || negb (truthy_str (trim (prompt s))).

Definition enhanceDisabled (s : AppState) : bool :=
  isLoading s || isEnhancing s || negb (isSome (originalImage s)).

Definition dispatch (start : AppState -> Eff bool)
    (request : AppState -> Request) (c : Controller) : Controller :=
  let m := start (state c) in
  {| state := run_sets (trace m) (state c);
     inflight := match outcome m with
                 | Resolved true => (inflight c ++ [request (state c)])%list
                 | _ => inflight c
                 end |}.

Definition settle (P : Platform) (r : Request) (s : AppState) : AppState :=
  match r with
  | GenerateRequest closure =>
      run_sets (trace (handleGenerateClick_request P closure)) s
  | EnhanceRequest closure =>
      run_sets (trace (handleEnhanceClick_request P closure)) s
  end.

(** Events of the page that involve no request. *)
Inductive Edit : Type :=
| ImageChange (file : option File)
| ImageLoaded (w h : number)
| PromptChange (value : string)
| ContrastChange (valueAsNumber : number)
| CropModal (open : bool)
| CropChange (c : option PixelCrop)
| CropComplete (c : PixelCrop)
| ApplyCrop (drawn : option string)
| ResetCrop
| ResetCropLoaded (w h : number)
| ResizeModeChange (m : ResizeMode)
| PercentageChange (valueAsNumber : number)
| WidthChange (valueAsNumber : number)
| HeightChange (valueAsNumber : number)
| ToggleLock.

Definition edit (e : Edit) (s : AppState) : AppState :=
  match e with
  | ImageChange file => handleImageChange s file
  | ImageLoaded w h => handleImageChange_onload s w h
  | PromptChange v => set_prompt v s
  | ContrastChange n => set_contrast n s
  | CropModal b => set_isCropModalOpen b s
  | CropChange c => set_crop c s
  | CropComplete c => set_completedCrop (Some c) s
  | ApplyCrop drawn => handleApplyCrop s drawn
  | ResetCrop => handleResetCrop s
  | ResetCropLoaded w h => handleResetCrop_onload s w h
  | ResizeModeChange m => set_resizeOptions (handleResizeModeChange s m) s
  | PercentageChange n => set_resizeOptions (handlePercentageChange s n) s
  | WidthChange n => set_resizeOptions (handleWidthChange s n) s
  | HeightChange n => set_resizeOptions (handleHeightChange s n) s
  | ToggleLock => set_resizeOptions (toggleAspectRatioLock s) s
  end.

Inductive step : Controller -> Controller -> Prop :=
| step_generate c :
    generateDisabled (state c) = false ->
    step c (dispatch handleGenerateClick_start GenerateRequest c)
| step_enhance c :
    enhanceDisabled (state c) = false ->
    step c (dispatch handleEnhanceClick_start EnhanceRequest c)
| step_settle c P before r others :
    inflight c = (before ++ r :: others)%list ->
    step c {| state := settle P r (state c);
              inflight := (before ++ others)%list |}
| step_edit c e :
    step c {| state := edit e (state c); inflight := inflight c |}
| step_adjust c P number_to_string rendered isMounted :
    step c {| state := run_sets
                (trace (adjustmentEffect P number_to_string rendered isMounted))
                (state c);
              inflight := inflight c |}.

Definition initialController : Controller :=
  {| state := initialState; inflight := [] |}.

Inductive reachable : Controller -> Prop :=
| reach_initial : reachable initialController
| reach_step c c' : reachable c -> step c c' -> reachable c'.

(* ================================================================= *)
(** ** Vocabulary of the specification *)

(** The setter calls of a log. *)
Fixpoint sets (t : list Event) : list SetCall :=
  match t with
  | [] => []
  | Set_ c :: t' => c :: sets t'
  | _ :: t' => sets t'
  end.

(** A log touches the remote service when it builds the client or sends
    the request. *)
Definition touches_remote (e : Event) : bool :=
  match e with
  | NewGoogleGenAI _ | CallGenerateContent _ _ => true
  | _ => false
  end.

(** The messages of the errors that [editImageWithGemini] makes of a failed
    remote call. *)
Definition is_remote_failure (err : Thrown) : Prop :=
  (exists m, err = ErrorObj ("Gemini API Error: " ++ m))
  \/ err = ErrorObj "An unknown error occurred while contacting the Gemini API.".

Fixpoint has_char (c : ascii) (s : string) : bool :=
  match s with
  | EmptyString => false
  | String a r => Ascii.eqb a c || has_char c r
  end.

(** [seg] is the second segment of [s] cut at the character [c]: what
    stands between the first [c] and the next one, or the end. *)
Definition segment1 (c : ascii) (s seg : string) : Prop :=
  exists pre rest,
    s = pre ++ String c (seg ++ rest)
    /\ has_char c pre = false
    /\ has_char c seg = false
    /\ (rest = "" \/ exists r, rest = String c r).

(** The second comma-separated segment of a data URL. *)
Definition second_segment (s seg : string) : Prop := segment1 "," s seg.

(** [round(w * H / W)] on integers, the quotient exact and a tie rounded up. *)
Definition round_ratio (w H W : Z) : Z := (2 * (w * H) + W) / (2 * W).

(** A data URL that declares [mime]: [data:mime;...]. *)
Definition declares (url mime : string) : Prop :=
  exists rest,
    url = "data:" ++ mime ++ ";" ++ rest
    /\ mime <> "" /\ has_char ";" mime = false.

(** The request in flight and the two flags agree. *)
Definition flags_agree (c : Controller) : Prop :=
  match inflight c with
  | [] => isLoading (state c) = false /\ isEnhancing (state c) = false
  | [GenerateRequest _] =>
      isLoading (state c) = true /\ isEnhancing (state c) = false
  | [EnhanceRequest _] =>
      isLoading (state c) = false /\ isEnhancing (state c) = true
  | _ => False
  end.

Definition idle (s : AppState) : Prop :=
  isLoading s = false /\ isEnhancing s = false.

(** A platform whose canvas follows the HTML standard where the bitmap has
    no pixels: [toDataURL] is then the string [data:,]. *)
Definition emptyCanvasPlatform : Platform :=
  {| API_KEY := Some "key";
     readAsDataURL := fun _ => Some "data:image/png;base64,AAAA";
     loadImage := fun _ => Some (of_Z 4, of_Z 3);
     getContext2d := fun _ _ => true;
     toDataURL := fun c mime =>
       if truthy_num (canvas_width c) && truthy_num (canvas_height c)
       then "data:" ++ mime ++ ";base64,AAAA" else "data:,";
     generateContent := fun _ _ =>
       ApiResponds [inlinePart "AAAA" "image/png"] |}.

(* ================================================================= *)
(** ** Sample data and auxiliary notions *)

Definition sampleFile : File := {| file_name := "photo.png"; file_type := "image/png" |}.

(** A 600 by 1300 image has been chosen and measured. *)
Definition portraitState : AppState :=
  edit (ImageLoaded (of_Z 600) (of_Z 1300))
    (edit (ImageChange (Some sampleFile)) initialState).

Definition readyState : AppState :=
  set_prompt "test"
    (edit (ImageLoaded (of_Z 400) (of_Z 300))
       (edit (ImageChange (Some sampleFile)) initialState)).

Definition zeroWidthState : AppState :=
  set_resizeOptions
    {| mode := mode_dimensions; percentage := of_Z 100; width := of_Z 0;
       height := of_Z 300; isAspectRatioLocked := false |}
    (set_originalDimensions
       (Some {| d_width := of_Z 400; d_height := of_Z 300 |}) initialState).

Definition noKeyPlatform : Platform :=
  {| API_KEY := None;
     readAsDataURL := readAsDataURL emptyCanvasPlatform;
     loadImage := loadImage emptyCanvasPlatform;
     getContext2d := getContext2d emptyCanvasPlatform;
     toDataURL := toDataURL emptyCanvasPlatform;
     generateContent := generateContent emptyCanvasPlatform |}.

(** A computation that sets nothing. *)
Definition quiet {A} (m : Eff A) : Prop := sets (trace m) = [].

(** A computation that either resolves having stored an edited image, once,
    or is rejected having set nothing. *)
Definition stores_or_fails (m : Eff unit) : Prop :=
  (exists v, outcome m = Resolved tt
             /\ sets (trace m) = [SetEditedImage (Some v)])
  \/ (exists err, outcome m = Rejected err /\ sets (trace m) = []).

(** The controllers met on the way from the first render to a click on
    Generate: an image is chosen, then measured, the prompt is typed. *)
Definition chosenController : Controller :=
  {| state := edit (ImageChange (Some sampleFile)) initialState;
     inflight := [] |}.

Definition measuredController : Controller :=
  {| state := edit (ImageLoaded (of_Z 400) (of_Z 300)) (state chosenController);
     inflight := [] |}.

Definition readyController : Controller :=
  {| state := readyState; inflight := [] |}.

(** The controller once Generate is clicked. *)
Definition generatingController : Controller :=
  dispatch handleGenerateClick_start GenerateRequest readyController.

Ltac break_hyps :=
  repeat match goal with
         | H : exists _, _ |- _ => destruct H
         | H : _ /\ _ |- _ => destruct H
         | H : _ \/ _ |- _ => destruct H
         | H : Some _ = Some _ |- _ => injection H as ?; subst
         | H : Rejected _ = Rejected _ |- _ => injection H as ?; subst
         | H : ?a = ?b |- _ => discriminate H
         end.

(* ================================================================= *)
(** ** Readings of a log *)

(** The requests sent to the remote service, in order. *)
Definition generate_call (e : Event) : list (Part * string) :=
  match e with CallGenerateContent image prompt => [(image, prompt)] | _ => [] end.

Definition calls (t : list Event) : list (Part * string) :=
  flat_map generate_call t.

(** The clients built. *)
Definition client_built (e : Event) : list string :=
  match e with NewGoogleGenAI k => [k] | _ => [] end.

Definition clients (t : list Event) : list string := flat_map client_built t.

(** The files handed to the reader. *)
Definition file_read (e : Event) : list File :=
  match e with CallReadAsDataURL f => [f] | _ => [] end.

Definition reads (t : list Event) : list File := flat_map file_read t.

(** The calls of [resizeImage]. *)
Definition resize_call (e : Event) : list (string * number * number) :=
  match e with CallResizeImage u w h => [(u, w, h)] | _ => [] end.

Definition resizes (t : list Event) : list (string * number * number) :=
  flat_map resize_call t.

(** The calls of [applyCanvasFilter]. *)
Definition filter_call (e : Event) : list (string * string) :=
  match e with CallApplyCanvasFilter u f => [(u, f)] | _ => [] end.

Definition filters (t : list Event) : list (string * string) :=
  flat_map filter_call t.

Fixpoint has_line_terminator (s : string) : bool :=
  match s with
  | EmptyString => false
  | String c r => is_line_terminator c || has_line_terminator r
  end.

(** Some part of a response carries [inlineData]. *)
Definition has_inline (parts : list Part) : bool :=
  existsb (fun p => isSome (inlineData p)) parts.

Definition configuration_error : Thrown :=
  ErrorObj "API key is not configured. Please set the API_KEY environment variable.".

Definition is_nan (x : number) : bool :=
  match x with S754_nan => true | _ => false end.

(** The messages [handleGenerateClick] can leave in [error]. *)
Definition generate_message (m : string) : Prop :=
  In m ["Please upload an image and enter a prompt.";
        "Invalid data URL for conversion.";
        "Failed to read file as base64.";
        "An unexpected error occurred.";
        "API key is not configured. Please set the API_KEY environment variable.";
        "An unknown error occurred while contacting the Gemini API.";
        "The API did not return an image. Please try a different prompt.";
        "Could not get canvas context";
        "Failed to load image for resizing."]
  \/ exists x, m = "Gemini API Error: " ++ x.

(** The edited image and the message are not both set, and neither is set
    while a request is in flight. *)
Definition result_consistent (c : Controller) : Prop :=
  match inflight c with
  | [] => editedImage (state c) = None \/ error (state c) = None
  | _ => editedImage (state c) = None /\ error (state c) = None
  end.

(** Every rejection of [m] satisfies [R]. *)
Definition rejects_within {A} (R : Thrown -> Prop) (m : Eff A) : Prop :=
  forall err, outcome m = Rejected err -> R err.

(** What a rejection becomes in [error]. *)
Definition shown (err : Thrown) : string :=
  message_or err "An unexpected error occurred.".

(** A platform where all works but the remote call, which fails. *)
Definition quotaPlatform : Platform :=
  {| API_KEY := Some "key";
     readAsDataURL := readAsDataURL emptyCanvasPlatform;
     loadImage := loadImage emptyCanvasPlatform;
     getContext2d := getContext2d emptyCanvasPlatform;
     toDataURL := toDataURL emptyCanvasPlatform;
     generateContent := fun _ _ => ApiRejects (ErrorObj "quota exceeded") |}.

(** A platform whose remote service answers with text only. *)
Definition textOnlyPlatform : Platform :=
  {| API_KEY := Some "key";
     readAsDataURL := readAsDataURL emptyCanvasPlatform;
     loadImage := loadImage emptyCanvasPlatform;
     getContext2d := getContext2d emptyCanvasPlatform;
     toDataURL := toDataURL emptyCanvasPlatform;
     generateContent := fun _ _ => ApiResponds [textPart "no image"] |}.

(** A platform whose remote service fails, and whose images do not load. *)
Definition failingPlatform : Platform :=
  {| API_KEY := Some "key";
     readAsDataURL := fun _ => None;
     loadImage := fun _ => None;
     getContext2d := fun _ _ => true;
     toDataURL := toDataURL emptyCanvasPlatform;
     generateContent := fun _ _ => ApiRejects (ErrorObj "quota exceeded") |}.

(** A platform that decodes no image but reads files and answers. *)
Definition noDecodePlatform : Platform :=
  {| API_KEY := Some "key";
     readAsDataURL := readAsDataURL emptyCanvasPlatform;
     loadImage := fun _ => None;
     getContext2d := fun _ _ => true;
     toDataURL := toDataURL emptyCanvasPlatform;
     generateContent := generateContent emptyCanvasPlatform |}.

(* ================================================================= *)
(** * Properties *)

(** ** JavaScript values *)

Example Math_round_half : Math_round (div (of_Z 1) (of_Z 2)) = of_Z 1.
Proof. vm_compute. reflexivity. Qed.

Example Math_round_neg_half :
  Math_round (div (of_Z (-1)) (of_Z 2)) = S754_zero true.
Proof. vm_compute. reflexivity. Qed.

Example Math_round_neg : Math_round (div (of_Z (-7)) (of_Z 2)) = of_Z (-3).
Proof. vm_compute. reflexivity. Qed.

Example Math_round_below_half :
  Math_round (mul (of_Z 49) (div (of_Z 1) (of_Z 98))) = of_Z 0.
Proof. vm_compute. reflexivity. Qed.

Example trim_blank : trim "  " = "" /\ trim " a b " = "a b".
Proof. split; reflexivity. Qed.

Example split_example :
  split "," "data:image/png;base64,AAA,BBB" = ["data:image/png;base64"; "AAA"; "BBB"].
Proof. reflexivity. Qed.

(** ** Logged computations *)

Lemma trace_bind {A B} (m : Eff A) (k : A -> Eff B) :
  trace (bind m k) =
  match outcome m with
  | Resolved a => (trace m ++ trace (k a))%list
  | Rejected _ => trace m
  end.
Proof.
  destruct m as [t [a | err]]; simpl; [ | reflexivity].
  destruct (k a); reflexivity.
Qed.

Lemma outcome_bind {A B} (m : Eff A) (k : A -> Eff B) :
  outcome (bind m k) =
  match outcome m with
  | Resolved a => outcome (k a)
  | Rejected err => Rejected err
  end.
Proof.
  destruct m as [t [a | err]]; simpl; [ | reflexivity].
  destruct (k a); reflexivity.
Qed.

Lemma trace_try_catch {A} (m : Eff A) (h : Thrown -> Eff A) :
  trace (try_catch m h) =
  match outcome m with
  | Resolved _ => trace m
  | Rejected err => (trace m ++ trace (h err))%list
  end.
Proof.
  destruct m as [t [a | err]]; simpl; [reflexivity | ].
  destruct (h err); reflexivity.
Qed.

Lemma outcome_try_catch {A} (m : Eff A) (h : Thrown -> Eff A) :
  outcome (try_catch m h) =
  match outcome m with
  | Resolved a => Resolved a
  | Rejected err => outcome (h err)
  end.
Proof.
  destruct m as [t [a | err]]; simpl; [reflexivity | ].
  destruct (h err); reflexivity.
Qed.

Lemma sets_app (t u : list Event) : sets (t ++ u) = (sets t ++ sets u)%list.
Proof.
  induction t as [ | e t IH]; simpl; [reflexivity | ].
  destruct e; simpl; rewrite IH; reflexivity.
Qed.

Lemma run_sets_fold (t : list Event) (s : AppState) :
  run_sets t s = fold_left (fun s c => apply_set c s) (sets t) s.
Proof.
  revert s; induction t as [ | e t IH]; intros s; simpl; [reflexivity | ].
  destruct e; simpl; apply IH.
Qed.

Lemma run_sets_app (t u : list Event) (s : AppState) :
  run_sets (t ++ u) s = run_sets u (run_sets t s).
Proof.
  rewrite !run_sets_fold, sets_app, fold_left_app. reflexivity.
Qed.

(** ** Edit request client *)

Lemma editImageWithGemini_sets P part prompt :
  sets (trace (editImageWithGemini P part prompt)) = [].
Proof.
  unfold editImageWithGemini.
  destruct (negb (truthy (API_KEY P))); [reflexivity | ].
  destruct (generateContent P part prompt) as [[m | ] | parts]; reflexivity.
Qed.

(** C2. When the credential is absent (undefined, or the empty string),
    [editImageWithGemini] throws its configuration error with nothing
    logged before it: no client is built and no request is sent; and the
    error is none of those a failed remote call is turned into. *)
Theorem editImageWithGemini_missing_key :
  forall (P : Platform) (imagePart : Part) (prompt : string),
    truthy (API_KEY P) = false ->
    outcome (editImageWithGemini P imagePart prompt)
    = Rejected (ErrorObj
        "API key is not configured. Please set the API_KEY environment variable.")
    /\ trace (editImageWithGemini P imagePart prompt) = []
    /\ existsb touches_remote (trace (editImageWithGemini P imagePart prompt))
       = false
    /\ forall err,
         outcome (editImageWithGemini P imagePart prompt) = Rejected err ->
         ~ is_remote_failure err.
Proof.
  intros P imagePart prompt Hkey.
  unfold editImageWithGemini. rewrite Hkey. simpl.
  repeat split.
  intros err Herr. unfold outcome in Herr. simpl in Herr.
  injection Herr as <-.
  intros [[m Hm] | Hm]; discriminate Hm.
Qed.

Lemma editImageWithGemini_missing_key_witness :
  outcome (editImageWithGemini noKeyPlatform (inlinePart "AAAA" "image/png") "test")
  = Rejected (ErrorObj
      "API key is not configured. Please set the API_KEY environment variable.")
  /\ trace (editImageWithGemini noKeyPlatform (inlinePart "AAAA" "image/png") "test")
     = [].
Proof.
  destruct (editImageWithGemini_missing_key noKeyPlatform
              (inlinePart "AAAA" "image/png") "test" eq_refl)
    as (Ho & Ht & _).
  split; [exact Ho | exact Ht].
Defined.

(** ** Image codec utilities *)

Lemma split_no_sep (c : ascii) (s : string) :
  has_char c s = false -> split c s = [s].
Proof.
  induction s as [ | a r IH]; simpl; [reflexivity | ].
  intros H. apply orb_false_iff in H as [Ha Hr].
  rewrite Ha, (IH Hr). reflexivity.
Qed.

Lemma split_at_first (c : ascii) (pre post : string) :
  has_char c pre = false ->
  split c (pre ++ String c post) = pre :: split c post.
Proof.
  induction pre as [ | a r IH]; simpl.
  - intros _. rewrite Ascii.eqb_refl. reflexivity.
  - intros H. apply orb_false_iff in H as [Ha Hr].
    rewrite Ha, (IH Hr). reflexivity.
Qed.

Lemma has_char_cut (c : ascii) (s : string) :
  has_char c s = true ->
  exists pre post, s = pre ++ String c post /\ has_char c pre = false.
Proof.
  induction s as [ | a r IH]; simpl; [discriminate | ].
  destruct (Ascii.eqb a c) eqn:Ha; simpl.
  - intros _. apply Ascii.eqb_eq in Ha. subst a.
    exists "", r. split; reflexivity.
  - intros Hr. destruct (IH Hr) as (pre & post & -> & Hpre).
    exists (String a pre), post. simpl. rewrite Ha, Hpre. split; reflexivity.
Qed.

Lemma split_head (c : ascii) (s : string) :
  exists h t, split c s = h :: t /\ has_char c h = false
              /\ (s = h /\ t = [] \/ exists r, s = h ++ String c r).
Proof.
  destruct (has_char c s) eqn:Hs.
  - destruct (has_char_cut c s Hs) as (pre & post & -> & Hpre).
    exists pre, (split c post). rewrite split_at_first by assumption.
    split; [reflexivity | split; [assumption | right; eauto]].
  - exists s, []. rewrite split_no_sep by assumption. auto.
Qed.

Lemma append_empty_r (s : string) : s ++ "" = s.
Proof. induction s as [ | a r IH]; simpl; [ | rewrite IH]; reflexivity. Qed.

(** [s.split(c)[1]] is the second segment of [s] cut at [c]. *)
Lemma index1_split (c : ascii) (s seg : string) :
  index1 (split c s) = Some seg <-> segment1 c s seg.
Proof.
  unfold index1, segment1. split.
  - destruct (has_char c s) eqn:Hs.
    + destruct (has_char_cut _ _ Hs) as (pre & post & -> & Hpre).
      rewrite split_at_first by assumption. simpl.
      destruct (split_head c post) as (h & t & -> & Hh & Hshape). simpl.
      intros [= <-]. exists pre.
      destruct Hshape as [[-> _] | [r ->]].
      * exists "". rewrite append_empty_r. auto.
      * exists (String c r). repeat split; eauto.
    + rewrite split_no_sep by assumption. discriminate.
  - intros (pre & rest & -> & Hpre & Hseg & Hrest).
    rewrite split_at_first by assumption. simpl.
    destruct Hrest as [-> | [r ->]].
    + rewrite append_empty_r, split_no_sep by assumption. reflexivity.
    + rewrite split_at_first by assumption. reflexivity.
Qed.

Lemma index1_split_segment (s seg : string) :
  index1 (split "," s) = Some seg <-> second_segment s seg.
Proof. apply index1_split. Qed.

Lemma no_payload_iff (s : string) :
  truthy (index1 (split "," s)) = false
  <-> ~ (exists seg, seg <> "" /\ second_segment s seg).
Proof.
  split.
  - intros H (seg & Hne & Hseg).
    apply index1_split_segment in Hseg. rewrite Hseg in H.
    destruct seg; [apply Hne; reflexivity | discriminate H].
  - intros H. destruct (index1 (split "," s)) as [seg | ] eqn:E; [ | reflexivity].
    destruct seg as [ | a r]; [reflexivity | ].
    exfalso. apply H. exists (String a r).
    split; [discriminate | apply index1_split_segment; assumption].
Qed.

Lemma fileToGenerativePart_sets P file :
  sets (trace (fileToGenerativePart P file)) = [].
Proof.
  unfold fileToGenerativePart.
  destruct (readAsDataURL P file) as [u | ]; [ | reflexivity].
  destruct (truthy (index1 (split "," u))); reflexivity.
Qed.

Lemma dataUrlToGenerativePart_sets u :
  sets (trace (dataUrlToGenerativePart u)) = [].
Proof.
  unfold dataUrlToGenerativePart.
  destruct (negb (truthy (index1 (split "," u)))); reflexivity.
Qed.

(** C5. On a string read as a data URL, each conversion fails, with its
    decoding error, exactly when the string has no non-empty second
    comma-separated segment; otherwise it returns a part whose data is that
    segment, with a MIME type (the declared one or the default for
    [dataUrlToGenerativePart], the type of the file for
    [fileToGenerativePart]). *)
Theorem codec_decoding_error :
  forall (P : Platform) (file : File) (dataUrl : string),
    readAsDataURL P file = Some dataUrl ->
    (outcome (dataUrlToGenerativePart dataUrl)
       = Rejected (ErrorObj "Invalid data URL for conversion.")
     <-> ~ (exists seg, seg <> "" /\ second_segment dataUrl seg))
    /\ (outcome (fileToGenerativePart P file)
          = Rejected (ErrorObj "Failed to read file as base64.")
        <-> ~ (exists seg, seg <> "" /\ second_segment dataUrl seg))
    /\ (forall seg,
          seg <> "" -> second_segment dataUrl seg ->
          (exists mime,
             outcome (dataUrlToGenerativePart dataUrl)
             = Resolved (inlinePart seg mime))
          /\ outcome (fileToGenerativePart P file)
             = Resolved (inlinePart seg (file_type file))).
Proof.
  intros P file dataUrl Hread.
  rewrite <- no_payload_iff.
  unfold dataUrlToGenerativePart, fileToGenerativePart. rewrite Hread.
  destruct (truthy (index1 (split "," dataUrl))) eqn:Ht; simpl.
  - split; [split; discriminate | split; [split; discriminate | ]].
    intros seg Hne Hseg. apply index1_split_segment in Hseg.
    rewrite Hseg. split; [eexists | ]; reflexivity.
  - split; [split; reflexivity | split; [split; reflexivity | ]].
    intros seg Hne Hseg. apply index1_split_segment in Hseg.
    rewrite Hseg in Ht. destruct seg; [contradiction | discriminate].
Qed.

Lemma codec_decoding_error_witness :
  (exists mime,
     outcome (dataUrlToGenerativePart "data:image/png;base64,AAAA")
     = Resolved (inlinePart "AAAA" mime))
  /\ outcome (fileToGenerativePart emptyCanvasPlatform
                {| file_name := "a.png"; file_type := "image/png" |})
     = Resolved (inlinePart "AAAA" "image/png").
Proof.
  destruct (codec_decoding_error emptyCanvasPlatform
              {| file_name := "a.png"; file_type := "image/png" |}
              "data:image/png;base64,AAAA" eq_refl) as (_ & _ & H).
  apply (H "AAAA").
  - discriminate.
  - exists "data:image/png;base64", "". repeat split; auto.
Defined.

(** ** Canvas transform utilities *)

Lemma resizeImage_sets P url w h : sets (trace (resizeImage P url w h)) = [].
Proof.
  unfold resizeImage. destruct (loadImage P url); [ | reflexivity].
  destruct (negb (getContext2d P w h)); reflexivity.
Qed.

Lemma resizeImage_loaded P url w h dims :
  loadImage P url = Some dims ->
  resizeImage P url w h =
  if getContext2d P w h then
    ([CallToDataURL (resizeCanvas url w h) (canvas_mime url)],
     Resolved (toDataURL P (resizeCanvas url w h) (canvas_mime url)))
  else ([], Rejected (ErrorObj "Could not get canvas context")).
Proof.
  intros Hload. unfold resizeImage. rewrite Hload.
  destruct (getContext2d P w h); reflexivity.
Qed.

(** C8. Once the source is decoded, [resizeImage] encodes the canvas of the
    requested size as [image/jpeg] when the URL begins with
    [data:image/jpeg], and as [image/png] for every other source; the only
    other end is the rejection for a missing 2D context. *)
Theorem resizeImage_preserves_format :
  forall (P : Platform) (imageUrl : string) (newWidth newHeight : number)
         (dims : number * number),
    loadImage P imageUrl = Some dims ->
    let canvas := resizeCanvas imageUrl newWidth newHeight in
    (startsWith imageUrl "data:image/jpeg" = true ->
     resizeImage P imageUrl newWidth newHeight =
     if getContext2d P newWidth newHeight then
       ([CallToDataURL canvas "image/jpeg"],
        Resolved (toDataURL P canvas "image/jpeg"))
     else ([], Rejected (ErrorObj "Could not get canvas context")))
    /\ (startsWith imageUrl "data:image/jpeg" = false ->
        resizeImage P imageUrl newWidth newHeight =
        if getContext2d P newWidth newHeight then
          ([CallToDataURL canvas "image/png"],
           Resolved (toDataURL P canvas "image/png"))
        else ([], Rejected (ErrorObj "Could not get canvas context"))).
Proof.
  intros P imageUrl newWidth newHeight dims Hload canvas.
  rewrite (resizeImage_loaded _ _ _ _ _ Hload). unfold canvas, canvas_mime.
  split; intros ->; reflexivity.
Qed.

Lemma resizeImage_preserves_format_witness :
  outcome (resizeImage emptyCanvasPlatform "data:image/jpeg;base64,AAAA"
             (of_Z 200) (of_Z 150))
  = Resolved "data:image/jpeg;base64,AAAA"
  /\ outcome (resizeImage emptyCanvasPlatform "data:image/webp;base64,AAAA"
                (of_Z 200) (of_Z 150))
     = Resolved "data:image/png;base64,AAAA".
Proof.
  split.
  - rewrite (proj1 (resizeImage_preserves_format emptyCanvasPlatform
                      "data:image/jpeg;base64,AAAA" (of_Z 200) (of_Z 150)
                      _ eq_refl) eq_refl).
    reflexivity.
  - rewrite (proj2 (resizeImage_preserves_format emptyCanvasPlatform
                      "data:image/webp;base64,AAAA" (of_Z 200) (of_Z 150)
                      _ eq_refl) eq_refl).
    reflexivity.
Defined.

(** C4, as stated, fails: asked for a canvas of width and height zero, with
    an image that decodes, [resizeImage] resolves, and with the empty data
    URL of a canvas without pixels. *)
Lemma resizeImage_zero_resolves :
  outcome (resizeImage emptyCanvasPlatform "data:image/png;base64,AAAA"
             (of_Z 0) (of_Z 0))
  = Resolved "data:,"
  /\ ~ (exists err,
          outcome (resizeImage emptyCanvasPlatform "data:image/png;base64,AAAA"
                     (of_Z 0) (of_Z 0))
          = Rejected err).
Proof.
  split; [reflexivity | ].
  intros [err H]. discriminate H.
Qed.

Lemma resizeImage_outcome P url w h :
  outcome (resizeImage P url w h) =
  match loadImage P url with
  | Some _ =>
      if getContext2d P w h
      then Resolved (toDataURL P (resizeCanvas url w h) (canvas_mime url))
      else Rejected (ErrorObj "Could not get canvas context")
  | None => Rejected (ErrorObj "Failed to load image for resizing.")
  end.
Proof.
  unfold resizeImage. destruct (loadImage P url); [ | reflexivity].
  destruct (getContext2d P w h); reflexivity.
Qed.

Lemma applyCanvasFilter_outcome P url filter :
  outcome (applyCanvasFilter P url filter) =
  match loadImage P url with
  | Some (w, h) =>
      if getContext2d P w h
      then Resolved (toDataURL P (filterCanvas url filter w h) (canvas_mime url))
      else Rejected (ErrorObj "Could not get canvas context")
  | None => Rejected (ErrorObj "Failed to load image for applying filter.")
  end.
Proof.
  unfold applyCanvasFilter. destruct (loadImage P url) as [[w h] | ]; [ | reflexivity].
  destruct (getContext2d P w h); reflexivity.
Qed.

(** C4, amended. The two canvas operations reject exactly when the image
    does not load or the canvas gives no 2D context, each time with an
    explicit [Error]; in every other case, whatever the requested or the
    decoded dimensions, they resolve with what [toDataURL] returns. *)
Theorem canvas_operations_reject_iff :
  forall (P : Platform) (imageUrl filter : string) (newWidth newHeight : number),
    ((exists err,
        outcome (resizeImage P imageUrl newWidth newHeight) = Rejected err)
     <-> loadImage P imageUrl = None \/ getContext2d P newWidth newHeight = false)
    /\ ((exists err,
           outcome (applyCanvasFilter P imageUrl filter) = Rejected err)
        <-> loadImage P imageUrl = None
            \/ exists w h, loadImage P imageUrl = Some (w, h)
                           /\ getContext2d P w h = false)
    /\ (forall err,
          outcome (resizeImage P imageUrl newWidth newHeight) = Rejected err
          \/ outcome (applyCanvasFilter P imageUrl filter) = Rejected err ->
          exists m, err = ErrorObj m /\ m <> "")
    /\ (forall w h,
          loadImage P imageUrl = Some (w, h) ->
          getContext2d P newWidth newHeight = true ->
          getContext2d P w h = true ->
          outcome (resizeImage P imageUrl newWidth newHeight)
          = Resolved (toDataURL P (resizeCanvas imageUrl newWidth newHeight)
                        (canvas_mime imageUrl))
          /\ outcome (applyCanvasFilter P imageUrl filter)
             = Resolved (toDataURL P (filterCanvas imageUrl filter w h)
                           (canvas_mime imageUrl))).
Proof.
  intros P imageUrl filter newWidth newHeight.
  rewrite resizeImage_outcome, applyCanvasFilter_outcome.
  destruct (loadImage P imageUrl) as [[w h] | ] eqn:Hload.
  - destruct (getContext2d P newWidth newHeight) eqn:Hc1;
      destruct (getContext2d P w h) eqn:Hc2.
    all: repeat split; intros; break_hyps; try congruence; eauto 6.
    all: try (eexists; split; [reflexivity | discriminate]).
  - repeat split; intros; break_hyps; eauto.
    all: eexists; split; [reflexivity | discriminate].
Qed.

Lemma canvas_operations_reject_iff_witness :
  outcome (resizeImage emptyCanvasPlatform "data:image/png;base64,AAAA"
             (of_Z 0) (of_Z 7))
  = Resolved "data:,".
Proof.
  destruct (canvas_operations_reject_iff emptyCanvasPlatform
              "data:image/png;base64,AAAA" "contrast(150%)" (of_Z 0) (of_Z 7))
    as (_ & _ & _ & H).
  destruct (H (of_Z 4) (of_Z 3) eq_refl eq_refl eq_refl) as [H1 _].
  rewrite H1. reflexivity.
Defined.

(** ** Controller: resizing after a result, adjustment, download *)

(** C10. When a resize is needed but the target width or the target height
    is not greater than zero, [processAndSetImage] stores the image it was
    given as the edited image and does nothing else: [resizeImage] is not
    called, nothing is thrown and no error is set. *)
Theorem processAndSetImage_skips_resize :
  forall (P : Platform) (s : AppState) (imageUrl : string) (od : Dimensions),
    isResizingNeeded s = true ->
    originalDimensions s = Some od ->
    gt (fst (targetSize s od)) (of_Z 0) && gt (snd (targetSize s od)) (of_Z 0)
    = false ->
    processAndSetImage P s imageUrl
    = ([Set_ (SetEditedImage (Some imageUrl))], Resolved tt)
    /\ editedImage (after (processAndSetImage P s imageUrl) s) = Some imageUrl
    /\ error (after (processAndSetImage P s imageUrl) s) = error s.
Proof.
  intros P s imageUrl od Hneed Hod Hsize.
  assert (E : processAndSetImage P s imageUrl
              = ([Set_ (SetEditedImage (Some imageUrl))], Resolved tt)).
  { unfold processAndSetImage. rewrite Hneed, Hod.
    destruct (targetSize s od) as [tw th]. cbn [fst snd] in Hsize.
    rewrite Hsize. reflexivity. }
  unfold after. rewrite E. auto.
Qed.

Lemma processAndSetImage_skips_resize_witness :
  processAndSetImage emptyCanvasPlatform zeroWidthState
    "data:image/png;base64,BBBB"
  = ([Set_ (SetEditedImage (Some "data:image/png;base64,BBBB"))], Resolved tt).
Proof.
  apply (processAndSetImage_skips_resize emptyCanvasPlatform zeroWidthState
           "data:image/png;base64,BBBB"
           {| d_width := of_Z 400; d_height := of_Z 300 |});
    vm_compute; reflexivity.
Defined.

(** C7. With an edit result in place and the contrast at 100, the
    adjustment effect logs one thing only, the setter call that makes the
    final image the edited image: no canvas filter is called. *)
Theorem adjustment_identity_at_100 :
  forall (P : Platform) (number_to_string : number -> string) (s : AppState)
         (result : string) (isMounted : bool),
    editedImage s = Some result ->
    result <> "" ->
    strict_eq (contrast s) (of_Z 100) = true ->
    adjustmentEffect P number_to_string s isMounted
    = ([Set_ (SetFinalImage (editedImage s))], Resolved tt)
    /\ finalImage (after (adjustmentEffect P number_to_string s isMounted) s)
       = editedImage s.
Proof.
  intros P nts s result isMounted Hres Hne Hc.
  assert (E : adjustmentEffect P nts s isMounted
              = ([Set_ (SetFinalImage (editedImage s))], Resolved tt)).
  { unfold adjustmentEffect, applyAdjustments, strict_neq.
    unfold strict_eq in Hc. rewrite Hres, Hc.
    destruct result; [contradiction | reflexivity]. }
  unfold after. rewrite E, Hres. auto.
Qed.

Lemma adjustment_identity_at_100_witness :
  adjustmentEffect emptyCanvasPlatform (fun _ => "100")
    (set_editedImage (Some "data:image/png;base64,AAAA") initialState) true
  = ([Set_ (SetFinalImage (Some "data:image/png;base64,AAAA"))], Resolved tt).
Proof.
  apply (adjustment_identity_at_100 emptyCanvasPlatform (fun _ => "100")
           (set_editedImage (Some "data:image/png;base64,AAAA") initialState)
           "data:image/png;base64,AAAA" true).
  - reflexivity.
  - discriminate.
  - vm_compute. reflexivity.
Defined.

Lemma not_semicolon_plus_step (a b : ascii) (r : string) :
  not_semicolon_plus (String a (String b r)) =
  if Ascii.eqb a ";" then None
  else if Ascii.eqb b ";" then Some (String a EmptyString)
       else option_map (String a) (not_semicolon_plus (String b r)).
Proof. reflexivity. Qed.

Lemma not_semicolon_plus_declared (mime rest : string) :
  mime <> "" -> has_char ";" mime = false ->
  not_semicolon_plus (mime ++ String ";" rest) = Some mime.
Proof.
  induction mime as [ | a r IH]; [contradiction | ].
  intros _ H. cbn [has_char] in H. apply orb_false_iff in H as [Ha Hr].
  destruct r as [ | b r'].
  - cbn [append]. rewrite not_semicolon_plus_step, Ha. reflexivity.
  - assert (Hb : Ascii.eqb b ";" = false).
    { cbn [has_char] in Hr. apply orb_false_iff in Hr as [Hb _]. exact Hb. }
    change (String a (String b r') ++ String ";" rest)
      with (String a (String b (r' ++ String ";" rest))).
    rewrite not_semicolon_plus_step, Ha, Hb.
    change (String b (r' ++ String ";" rest))
      with (String b r' ++ String ";" rest).
    rewrite IH by (discriminate || assumption). reflexivity.
Qed.

Lemma match_data_declared (url mime : string) :
  declares url mime -> match_data not_semicolon_plus url = Some mime.
Proof.
  intros (rest & -> & Hne & Hsemi).
  change ("data:" ++ mime ++ ";" ++ rest)
    with (String "d" (String "a" (String "t" (String "a" (String ":"
            (mime ++ String ";" rest)))))).
  unfold match_data, startsWith. simpl.
  rewrite not_semicolon_plus_declared by assumption. reflexivity.
Qed.

Lemma not_semicolon_plus_needs_semicolon (s g : string) :
  not_semicolon_plus s = Some g -> has_char ";" s = true.
Proof.
  revert g; induction s as [ | a r IH]; intros g; simpl; [discriminate | ].
  destruct (Ascii.eqb a ";"); [discriminate | ]. simpl.
  destruct r as [ | b r']; [discriminate | ].
  destruct (Ascii.eqb b ";") eqn:Hb.
  - intros _. simpl. rewrite Hb. reflexivity.
  - destruct (not_semicolon_plus (String b r')) eqn:E; [ | discriminate].
    intros _. eapply IH. reflexivity.
Qed.

Lemma has_char_drop (c : ascii) (n : nat) (s : string) :
  has_char c s = false -> has_char c (drop n s) = false.
Proof.
  revert s; induction n as [ | n IH]; intros s; simpl; [auto | ].
  destruct s as [ | a r]; simpl; [auto | ].
  intros H. apply orb_false_iff in H as [_ H]. auto.
Qed.

Lemma match_data_no_semicolon (s : string) :
  has_char ";" s = false -> match_data not_semicolon_plus s = None.
Proof.
  induction s as [ | a r IH]; [reflexivity | ].
  intros H.
  assert (Hr : has_char ";" r = false).
  { simpl in H. apply orb_false_iff in H as [_ H]. exact H. }
  cbn [match_data].
  destruct (not_semicolon_plus (drop 5 (String a r))) as [g | ] eqn:E.
  - apply not_semicolon_plus_needs_semicolon in E.
    rewrite (has_char_drop ";" 5 _ H) in E. discriminate.
  - destruct (startsWith (String a r) "data:"); auto.
Qed.

Lemma downloadExtension_subtype (url type sub : string) :
  declares url (type ++ String "/" sub) ->
  has_char "/" type = false -> has_char "/" sub = false -> sub <> "" ->
  downloadExtension url = if String.eqb sub "jpeg" then "jpg" else sub.
Proof.
  intros Hdecl Htype Hsub Hne.
  unfold downloadExtension. rewrite (match_data_declared _ _ Hdecl).
  assert (Hm : truthy_str (type ++ String "/" sub) = true)
    by (destruct type; reflexivity).
  rewrite Hm.
  assert (Hi : index1 (split "/" (type ++ String "/" sub)) = Some sub).
  { apply index1_split. exists type, "".
    rewrite append_empty_r. auto. }
  rewrite Hi. destruct (String.eqb sub "jpeg"); [reflexivity | ].
  destruct sub; [contradiction | reflexivity].
Qed.

Lemma downloadExtension_no_subtype (url mime : string) :
  declares url mime ->
  has_char "/" mime = false
  \/ (exists type, mime = type ++ "/" /\ has_char "/" type = false) ->
  downloadExtension url = "png".
Proof.
  intros Hdecl Hshape.
  unfold downloadExtension. rewrite (match_data_declared _ _ Hdecl).
  destruct Hdecl as (_ & _ & Hne & _).
  assert (Hm : truthy_str mime = true) by (destruct mime; [contradiction | reflexivity]).
  rewrite Hm.
  destruct Hshape as [Hno | (type & -> & Htype)].
  - rewrite split_no_sep by assumption. reflexivity.
  - change (type ++ "/") with (type ++ String "/" "").
    rewrite split_at_first by assumption. reflexivity.
Qed.

Lemma downloadExtension_no_mime (url : string) :
  has_char ";" url = false
  \/ (exists rest, url = "data:;" ++ rest /\ has_char ";" rest = false) ->
  downloadExtension url = "png".
Proof.
  intros [Hno | (rest & -> & Hrest)]; unfold downloadExtension.
  - rewrite match_data_no_semicolon by assumption. reflexivity.
  - assert (E : match_data not_semicolon_plus ("data:;" ++ rest) = None).
    { cbn -[not_semicolon_plus]. cbn [not_semicolon_plus]. cbn.
      apply match_data_no_semicolon. assumption. }
    rewrite E. reflexivity.
Qed.

(** C9. The extension of the downloaded file follows the MIME type the
    image's data URL declares: [image/jpeg] gives [jpg], [image/png] gives
    [png], any other image type with a subtype gives that subtype (and so
    does every type whose subtype is not [jpeg]), and a MIME type that is
    unknown (no subtype) or missing gives [png]. *)
Theorem download_extension_by_mime :
  forall (s : AppState) (url : string),
    url <> "" ->
    (finalImage s = Some url ->
     handleDownload s = Some ("edited-image." ++ downloadExtension url))
    /\ (editedImage s = Some url ->
        App_tsx.handleDownload s = Some ("edited-image." ++ downloadExtension url))
    /\ (declares url "image/jpeg" -> downloadExtension url = "jpg")
    /\ (declares url "image/png" -> downloadExtension url = "png")
    /\ (forall sub,
          declares url ("image/" ++ sub) ->
          sub <> "" -> has_char "/" sub = false ->
          "image/" ++ sub <> "image/jpeg" ->
          downloadExtension url = sub)
    /\ (forall type sub,
          declares url (type ++ "/" ++ sub) ->
          has_char "/" type = false -> has_char "/" sub = false ->
          sub <> "" -> sub <> "jpeg" ->
          downloadExtension url = sub)
    /\ (forall mime,
          declares url mime ->
          has_char "/" mime = false
          \/ (exists type, mime = type ++ "/" /\ has_char "/" type = false) ->
          downloadExtension url = "png")
    /\ (has_char ";" url = false
        \/ (exists rest, url = "data:;" ++ rest /\ has_char ";" rest = false) ->
        downloadExtension url = "png").
Proof.
  intros s url Hurl.
  assert (Ht : truthy_str url = true) by (destruct url; [contradiction | reflexivity]).
  assert (Hsub : forall type sub,
             declares url (type ++ "/" ++ sub) ->
             has_char "/" type = false -> has_char "/" sub = false ->
             sub <> "" -> sub <> "jpeg" -> downloadExtension url = sub).
  { intros type sub Hd H1 H2 H3 H4.
    rewrite (downloadExtension_subtype url type sub Hd H1 H2 H3).
    apply String.eqb_neq in H4. rewrite H4. reflexivity. }
  repeat split.
  - intros H. unfold handleDownload. rewrite H, Ht. reflexivity.
  - intros H. unfold App_tsx.handleDownload. rewrite H, Ht. reflexivity.
  - intros Hd.
    apply (downloadExtension_subtype url "image" "jpeg" Hd);
      [reflexivity | reflexivity | discriminate].
  - intros Hd.
    apply (downloadExtension_subtype url "image" "png" Hd);
      [reflexivity | reflexivity | discriminate].
  - intros sub Hd Hne Hslash Hother.
    apply (Hsub "image" sub Hd); auto.
    intros ->. apply Hother. reflexivity.
  - exact Hsub.
  - intros mime. apply downloadExtension_no_subtype.
  - apply downloadExtension_no_mime.
Qed.

Lemma download_extension_by_mime_witness :
  handleDownload
    (set_finalImage (Some "data:image/webp;base64,AAAA") initialState)
  = Some "edited-image.webp".
Proof.
  destruct (download_extension_by_mime
              (set_finalImage (Some "data:image/webp;base64,AAAA") initialState)
              "data:image/webp;base64,AAAA")
    as (H & _ & _ & _ & Hsub & _); [discriminate | ].
  rewrite (H eq_refl).
  rewrite (Hsub "webp"); [reflexivity | | discriminate | reflexivity | discriminate].
  exists "base64,AAAA".
  split; [reflexivity | split; [discriminate | reflexivity]].
Defined.

(** ** Controller: aspect-ratio lock *)

Example handleWidthChange_spec_scenario :
  let s := edit (ImageLoaded (of_Z 400) (of_Z 300))
             (edit (ImageChange (Some sampleFile)) initialState) in
  height (handleWidthChange s (of_Z 200)) = of_Z 150
  /\ round_ratio 200 300 400 = 150.
Proof. vm_compute. split; reflexivity. Qed.

(** The double product [57 * (1300 / 600)] is the double just below 123.5,
    while [57 * 1300 / 600], evaluated from the left, is 123.5 itself. *)
Example product_below_tie :
  mul (of_Z 57) (div (of_Z 1300) (of_Z 600))
  = S754_finite false 8690539905941503 (-46)
  /\ 2 * 8690539905941503 < 247 * 2 ^ 46
  /\ div (mul (of_Z 57) (of_Z 1300)) (of_Z 600)
     = S754_finite false 8690539905941504 (-46)
  /\ 2 * 8690539905941504 = 247 * 2 ^ 46
  /\ Math_round (div (mul (of_Z 57) (of_Z 1300)) (of_Z 600)) = of_Z 124.
Proof. vm_compute. repeat split. Qed.

(** C6, as stated, fails: for a 600 by 1300 source with the lock on, the
    width 57 gives the height 123, while 57 * 1300 / 600 = 123.5 rounds to
    124.  The quotient 1300 / 600 is rounded to a double before the
    multiplication, and the product falls just below the tie. *)
Lemma handleWidthChange_tie_counterexample :
  isAspectRatioLocked (resizeOptions portraitState) = true
  /\ sourceDims portraitState
     = Some {| d_width := of_Z 600; d_height := of_Z 1300 |}
  /\ height (handleWidthChange portraitState (of_Z 57)) = of_Z 123
  /\ round_ratio 57 1300 600 = 124
  /\ height (handleWidthChange portraitState (of_Z 57))
     <> of_Z (round_ratio 57 1300 600).
Proof.
  vm_compute. repeat split; discriminate.
Qed.

(** C6, amended. With the lock on and the source dimensions known (those
    of the completed crop when there is one), a new width [w] is stored as
    it is, zero standing for an empty field, and the height stored is
    [Math.round] of the double product of [w] and the double quotient of the
    source height by the source width; the other options are kept. *)
Theorem handleWidthChange_locked :
  forall (s : AppState) (valueAsNumber : number) (d : Dimensions),
    sourceDims s = Some d ->
    isAspectRatioLocked (resizeOptions s) = true ->
    let w := or_num valueAsNumber (of_Z 0) in
    let o := handleWidthChange s valueAsNumber in
    width o = w
    /\ height o = Math_round (mul w (div (d_height d) (d_width d)))
    /\ mode o = mode (resizeOptions s)
    /\ percentage o = percentage (resizeOptions s)
    /\ isAspectRatioLocked o = true.
Proof.
  intros s v d Hd Hlock. unfold handleWidthChange.
  rewrite Hd, Hlock. simpl. rewrite Hlock. auto.
Qed.

Lemma handleWidthChange_locked_witness :
  height (handleWidthChange portraitState (of_Z 300)) = of_Z 650.
Proof.
  destruct (handleWidthChange_locked portraitState (of_Z 300)
              {| d_width := of_Z 600; d_height := of_Z 1300 |}
              eq_refl eq_refl) as (_ & H & _).
  rewrite H. vm_compute. reflexivity.
Defined.

(** ** Controller: one generate or enhance request *)

Lemma bind_quiet {A} (m : Eff A) (k : A -> Eff unit) :
  quiet m -> (forall a, stores_or_fails (k a)) -> stores_or_fails (bind m k).
Proof.
  unfold quiet, stores_or_fails. intros Hm Hk.
  rewrite trace_bind, outcome_bind.
  destruct (outcome m) as [a | err].
  - rewrite sets_app, Hm. simpl. apply Hk.
  - right. eauto.
Qed.

Lemma throw_fails (err : Thrown) : stores_or_fails (throw err).
Proof. right. exists err. split; reflexivity. Qed.

Lemma store_stores (v : string) :
  stores_or_fails (emit (Set_ (SetEditedImage (Some v)))).
Proof. left. exists v. split; reflexivity. Qed.

(** Computations known to set nothing. *)
Create HintDb quiet_db.
#[export] Hint Resolve fileToGenerativePart_sets dataUrlToGenerativePart_sets
  editImageWithGemini_sets resizeImage_sets : quiet_db.

Section Request.

Variable P : Platform.

Lemma processAndSetImage_stores s imageUrl :
  stores_or_fails (processAndSetImage P s imageUrl).
Proof.
  unfold processAndSetImage.
  destruct (isResizingNeeded s); [ | apply store_stores].
  destruct (originalDimensions s) as [od | ]; [ | apply store_stores].
  destruct (targetSize s od) as [tw th].
  destruct (gt tw (of_Z 0) && gt th (of_Z 0)); [ | apply store_stores].
  apply bind_quiet; [reflexivity | intros _].
  apply bind_quiet; [apply resizeImage_sets | intros v; apply store_stores].
Qed.

Lemma requestImagePart_quiet s : quiet (requestImagePart P s).
Proof.
  unfold quiet, requestImagePart.
  destruct (croppedImageUrl s) as [u | ], (originalImage s) as [f | ];
    try destruct (truthy_str u); auto with quiet_db.
Qed.

Lemma message_or_not_empty (err : Thrown) (d : string) :
  d <> "" -> message_or err d <> "".
Proof.
  intros Hd. destruct err as [m | ]; simpl; [ | exact Hd].
  destruct m; simpl; [exact Hd | discriminate].
Qed.

(** What a [try] block that stores or fails leaves, once its [catch] has
    turned a failure into a message and its [finally] has cleared [flag]. *)
Lemma guarded_request_sets (body : Eff unit) (flag : SetCall) :
  stores_or_fails body ->
  (exists v,
     sets (trace (finally (try_catch body catch_to_error) [Set_ flag]))
     = [SetEditedImage (Some v); flag])
  \/ (exists m,
        m <> ""
        /\ sets (trace (finally (try_catch body catch_to_error) [Set_ flag]))
           = [SetError (Some m); flag]).
Proof.
  assert (E : trace (finally (try_catch body catch_to_error) [Set_ flag])
              = (trace (try_catch body catch_to_error) ++ [Set_ flag])%list)
    by reflexivity.
  rewrite E. clear E.
  intros [(v & Ho & Hs) | (err & Ho & Hs)];
    rewrite sets_app, trace_try_catch, Ho.
  - left. exists v. rewrite Hs. reflexivity.
  - right. exists (message_or err "An unexpected error occurred.").
    split; [apply message_or_not_empty; discriminate | ].
    rewrite sets_app, Hs. reflexivity.
Qed.

Lemma generate_try_stores (after_api : string -> Eff unit) (msg : string)
    (prompt : string) :
  (forall u, stores_or_fails (after_api u)) ->
  forall part : Eff Part, quiet part ->
  stores_or_fails
    (imagePart <- part ;;
     editedImageUrl <- editImageWithGemini P imagePart prompt ;;
     match editedImageUrl with
     | Some u => if truthy_str u then after_api u else throw (ErrorObj msg)
     | None => throw (ErrorObj msg)
     end).
Proof.
  intros Hafter part Hpart.
  apply bind_quiet; [exact Hpart | intros imagePart].
  apply bind_quiet; [apply editImageWithGemini_sets | intros [u | ]].
  - destruct (truthy_str u); [apply Hafter | apply throw_fails].
  - apply throw_fails.
Qed.

Lemma handleGenerateClick_request_sets s :
  (exists v, sets (trace (handleGenerateClick_request P s))
             = [SetEditedImage (Some v); SetIsLoading false])
  \/ (exists m, m <> ""
                /\ sets (trace (handleGenerateClick_request P s))
                   = [SetError (Some m); SetIsLoading false]).
Proof.
  apply guarded_request_sets.
  apply (generate_try_stores (processAndSetImage P s)).
  - apply processAndSetImage_stores.
  - apply requestImagePart_quiet.
Qed.

Lemma handleEnhanceClick_request_sets s :
  (exists v, sets (trace (handleEnhanceClick_request P s))
             = [SetEditedImage (Some v); SetIsEnhancing false])
  \/ (exists m, m <> ""
                /\ sets (trace (handleEnhanceClick_request P s))
                   = [SetError (Some m); SetIsEnhancing false]).
Proof.
  apply guarded_request_sets.
  apply (generate_try_stores (processAndSetImage P s)).
  - apply processAndSetImage_stores.
  - apply requestImagePart_quiet.
Qed.

Lemma App_tsx_request_sets s :
  (exists v, sets (trace (App_tsx.handleGenerateClick_request P s))
             = [SetEditedImage (Some v); SetIsLoading false])
  \/ (exists m, m <> ""
                /\ sets (trace (App_tsx.handleGenerateClick_request P s))
                   = [SetError (Some m); SetIsLoading false]).
Proof.
  apply guarded_request_sets.
  apply (generate_try_stores
           (fun u => emit (Set_ (SetEditedImage (Some u))))).
  - intros u. apply store_stores.
  - destruct (originalImage s);
      [apply fileToGenerativePart_sets | reflexivity].
Qed.

End Request.

Lemma guarded_request_outcome (body : Eff unit) (flag : SetCall) :
  outcome (finally (try_catch body catch_to_error) [Set_ flag]) = Resolved tt.
Proof.
  unfold finally, outcome at 1. cbn [snd].
  change (snd (try_catch body catch_to_error))
    with (outcome (try_catch body catch_to_error)).
  rewrite outcome_try_catch.
  destruct (outcome body) as [[] | err]; reflexivity.
Qed.

(** The state after a request that found [s0]: an image and no change to
    the message, or a message and no change to the image. *)
Lemma run_request_sets (t : list Event) (s0 : AppState) (flag : SetCall) :
  (exists v, sets t = [SetEditedImage (Some v); flag])
  \/ (exists m, m <> "" /\ sets t = [SetError (Some m); flag]) ->
  (exists v, run_sets t s0
             = apply_set flag (set_editedImage (Some v) s0))
  \/ (exists m, m <> ""
                /\ run_sets t s0 = apply_set flag (set_error (Some m) s0)).
Proof.
  intros [(v & H) | (m & Hm & H)]; rewrite run_sets_fold, H; simpl; eauto.
Qed.

Lemma nonblank_truthy (p : string) : trim p <> "" -> truthy_str (trim p) = true.
Proof. destruct (trim p); [contradiction | reflexivity]. Qed.

(** The guard of [handleGenerateClick]: a prompt of white space only is
    answered with the message alone; nothing else is set, no request made. *)
Remark handleGenerateClick_blank_prompt (P : Platform) (s : AppState) :
  trim (prompt s) = "" ->
  handleGenerateClick P s
  = ([Set_ (SetError (Some "Please upload an image and enter a prompt."))],
     Resolved tt).
Proof.
  intros H. unfold handleGenerateClick, handleGenerateClick_start.
  rewrite H. simpl. rewrite orb_true_r. reflexivity.
Qed.

(** C1. With an image present and a prompt that is not blank (the
    handler's own test, [prompt.trim()]), one invocation of
    [handleGenerateClick] ends, its promise resolved, in a state where
    [isLoading] is false and exactly one of the edited image and the error
    message is set: an edited image and no message, or a (non-empty) message
    and no edited image.  This holds of the controller and of its first
    version alike. *)
Theorem handleGenerateClick_image_xor_error :
  forall (P : Platform) (s : AppState) (file : File),
    originalImage s = Some file ->
    trim (prompt s) <> "" ->
    (outcome (handleGenerateClick P s) = Resolved tt
     /\ isLoading (after (handleGenerateClick P s) s) = false
     /\ ((exists v,
            editedImage (after (handleGenerateClick P s) s) = Some v
            /\ error (after (handleGenerateClick P s) s) = None)
         \/ (exists m,
               m <> ""
               /\ error (after (handleGenerateClick P s) s) = Some m
               /\ editedImage (after (handleGenerateClick P s) s) = None)))
    /\ (outcome (App_tsx.handleGenerateClick P s) = Resolved tt
        /\ isLoading (after (App_tsx.handleGenerateClick P s) s) = false
        /\ ((exists v,
               editedImage (after (App_tsx.handleGenerateClick P s) s) = Some v
               /\ error (after (App_tsx.handleGenerateClick P s) s) = None)
            \/ (exists m,
                  m <> ""
                  /\ error (after (App_tsx.handleGenerateClick P s) s) = Some m
                  /\ editedImage (after (App_tsx.handleGenerateClick P s) s)
                     = None))).
Proof.
  intros P s file Himg Hprompt.
  apply nonblank_truthy in Hprompt.
  split.
  - assert (Hstart : handleGenerateClick_start s
                     = ([Set_ (SetIsLoading true); Set_ (SetError None);
                         Set_ (SetEditedImage None)], Resolved true)).
    { unfold handleGenerateClick_start. rewrite Himg, Hprompt. reflexivity. }
    unfold after, handleGenerateClick.
    rewrite trace_bind, outcome_bind, Hstart. cbn [outcome trace fst snd].
    split; [apply guarded_request_outcome | ].
    rewrite run_sets_app.
    destruct (run_request_sets _
                (run_sets [Set_ (SetIsLoading true); Set_ (SetError None);
                           Set_ (SetEditedImage None)] s)
                _ (handleGenerateClick_request_sets P s))
      as [(v & ->) | (m & Hm & ->)].
    + split; [reflexivity | left; exists v; split; reflexivity].
    + split; [reflexivity | right; exists m; repeat split; assumption].
  - assert (Hstart : App_tsx.handleGenerateClick_start s
                     = ([Set_ (SetIsLoading true); Set_ (SetError None);
                         Set_ (SetEditedImage None)], Resolved true)).
    { unfold App_tsx.handleGenerateClick_start.
      rewrite Himg, Hprompt. reflexivity. }
    unfold after, App_tsx.handleGenerateClick.
    rewrite trace_bind, outcome_bind, Hstart. cbn [outcome trace fst snd].
    split; [apply guarded_request_outcome | ].
    rewrite run_sets_app.
    destruct (run_request_sets _
                (run_sets [Set_ (SetIsLoading true); Set_ (SetError None);
                           Set_ (SetEditedImage None)] s)
                _ (App_tsx_request_sets P s))
      as [(v & ->) | (m & Hm & ->)].
    + split; [reflexivity | left; exists v; split; reflexivity].
    + split; [reflexivity | right; exists m; repeat split; assumption].
Qed.

Lemma handleGenerateClick_image_xor_error_witness :
  isLoading (after (handleGenerateClick emptyCanvasPlatform readyState) readyState)
  = false
  /\ editedImage (after (handleGenerateClick emptyCanvasPlatform readyState)
                    readyState)
     = Some "data:image/png;base64,AAAA"
  /\ error (after (handleGenerateClick noKeyPlatform readyState) readyState)
     = Some "API key is not configured. Please set the API_KEY environment variable.".
Proof.
  destruct (handleGenerateClick_image_xor_error emptyCanvasPlatform readyState
              sampleFile eq_refl) as [(_ & Hflag & _) _].
  - vm_compute. discriminate.
  - split; [exact Hflag | split; vm_compute; reflexivity].
Defined.

(** ** Controller: the in-flight flags *)

Lemma edit_keeps_flags (e : Edit) (s : AppState) :
  isLoading (edit e s) = isLoading s /\ isEnhancing (edit e s) = isEnhancing s.
Proof.
  destruct e; simpl; auto.
  - destruct file; simpl; auto.
  - unfold handleApplyCrop.
    destruct (completedCrop s), drawn; simpl; auto.
Qed.

Lemma adjustmentEffect_keeps_flags P nts rendered isMounted (s : AppState) :
  let s' := run_sets (trace (adjustmentEffect P nts rendered isMounted)) s in
  isLoading s' = isLoading s /\ isEnhancing s' = isEnhancing s.
Proof.
  unfold adjustmentEffect, applyAdjustments.
  destruct (editedImage rendered) as [e | ]; [ | simpl; auto].
  destruct (truthy_str e); [ | simpl; auto].
  destruct (strict_neq (contrast rendered) (of_Z 100)); [ | simpl; auto].
  unfold applyCanvasFilter.
  destruct (loadImage P e) as [[w h] | ]; [ | destruct isMounted; simpl; auto].
  destruct (getContext2d P w h), isMounted; simpl; auto.
Qed.

Lemma settle_generate_flags P closure (s : AppState) :
  isLoading (settle P (GenerateRequest closure) s) = false
  /\ isEnhancing (settle P (GenerateRequest closure) s) = isEnhancing s.
Proof.
  unfold settle.
  destruct (run_request_sets _ s _ (handleGenerateClick_request_sets P closure))
    as [(v & ->) | (m & _ & ->)]; simpl; auto.
Qed.

Lemma settle_enhance_flags P closure (s : AppState) :
  isEnhancing (settle P (EnhanceRequest closure) s) = false
  /\ isLoading (settle P (EnhanceRequest closure) s) = isLoading s.
Proof.
  unfold settle.
  destruct (run_request_sets _ s _ (handleEnhanceClick_request_sets P closure))
    as [(v & ->) | (m & _ & ->)]; simpl; auto.
Qed.

Lemma enabled_generate_starts (s : AppState) :
  generateDisabled s = false ->
  idle s
  /\ handleGenerateClick_start s
     = ([Set_ (SetIsLoading true); Set_ (SetError None);
         Set_ (SetEditedImage None)], Resolved true).
Proof.
  unfold generateDisabled, idle, handleGenerateClick_start. intros H.
  apply orb_false_iff in H as [H Hp]. apply orb_false_iff in H as [H Hi].
  apply orb_false_iff in H as [Hl He].
  rewrite Hi, Hp. simpl. auto.
Qed.

Lemma enabled_enhance_starts (s : AppState) :
  enhanceDisabled s = false ->
  idle s
  /\ handleEnhanceClick_start s
     = ([Set_ (SetIsEnhancing true); Set_ (SetError None);
         Set_ (SetEditedImage None)], Resolved true).
Proof.
  unfold enhanceDisabled, idle, handleEnhanceClick_start. intros H.
  apply orb_false_iff in H as [H Hi]. apply orb_false_iff in H as [Hl He].
  rewrite Hi. simpl. auto.
Qed.

Lemma idle_nothing_inflight (c : Controller) :
  flags_agree c -> idle (state c) -> inflight c = [].
Proof.
  unfold flags_agree, idle.
  destruct (inflight c) as [ | [cl | cl] [ | r l]]; intros H [Hl He];
    try reflexivity; try contradiction; destruct H; congruence.
Qed.

Lemma step_keeps_flags_agree (c c' : Controller) :
  flags_agree c -> step c c' -> flags_agree c'.
Proof.
  intros Hinv Hstep. destruct Hstep as
    [c Hen | c Hen | c P before r others Hcut | c e | c P nts rendered m].
  - destruct (enabled_generate_starts _ Hen) as [Hidle Hstart].
    pose proof (idle_nothing_inflight c Hinv Hidle) as Hnone.
    destruct Hidle as [_ He].
    unfold flags_agree, dispatch. rewrite Hstart, Hnone. simpl. auto.
  - destruct (enabled_enhance_starts _ Hen) as [Hidle Hstart].
    pose proof (idle_nothing_inflight c Hinv Hidle) as Hnone.
    destruct Hidle as [Hl _].
    unfold flags_agree, dispatch. rewrite Hstart, Hnone. simpl. auto.
  - unfold flags_agree in *. rewrite Hcut in Hinv. cbn [inflight state].
    destruct before as [ | b before]; simpl in *.
    + destruct r as [cl | cl], others as [ | r' l]; try contradiction.
      * destruct Hinv as [_ He].
        destruct (settle_generate_flags P cl (state c)) as [H1 H2].
        split; congruence.
      * destruct Hinv as [Hl _].
        destruct (settle_enhance_flags P cl (state c)) as [H1 H2].
        split; congruence.
    + destruct b, before; simpl in Hinv; contradiction.
  - unfold flags_agree in *. cbn [inflight state].
    destruct (edit_keeps_flags e (state c)) as [-> ->]. exact Hinv.
  - unfold flags_agree in *. cbn [inflight state].
    destruct (adjustmentEffect_keeps_flags P nts rendered m (state c))
      as [-> ->].
    exact Hinv.
Qed.

Lemma reachable_flags_agree (c : Controller) : reachable c -> flags_agree c.
Proof.
  induction 1 as [ | c c' _ IH Hstep].
  - split; reflexivity.
  - exact (step_keeps_flags_agree c c' IH Hstep).
Qed.

(** C3. In every reachable state of the controller at most one of
    [isLoading] and [isEnhancing] is true.  A click on an enabled button
    finds the controller idle and raises the button's own flag only; and
    whatever the platform answers, success or failure, the request that
    settles leaves the controller idle with nothing in flight. *)
Theorem at_most_one_request_in_flight :
  forall c : Controller,
    reachable c ->
    ~ (isLoading (state c) = true /\ isEnhancing (state c) = true)
    /\ (generateDisabled (state c) = false ->
        let c' := dispatch handleGenerateClick_start GenerateRequest c in
        idle (state c)
        /\ isLoading (state c') = true /\ isEnhancing (state c') = false
        /\ inflight c' = [GenerateRequest (state c)])
    /\ (enhanceDisabled (state c) = false ->
        let c' := dispatch handleEnhanceClick_start EnhanceRequest c in
        idle (state c)
        /\ isLoading (state c') = false /\ isEnhancing (state c') = true
        /\ inflight c' = [EnhanceRequest (state c)])
    /\ (forall P before r others,
          inflight c = (before ++ r :: others)%list ->
          idle (settle P r (state c)) /\ (before ++ others)%list = []).
Proof.
  intros c Hreach. pose proof (reachable_flags_agree c Hreach) as Hinv.
  split; [ | split; [ | split]].
  - intros [Hl He]. unfold flags_agree in Hinv.
    destruct (inflight c) as [ | [cl | cl] [ | r l]];
      try contradiction; destruct Hinv; congruence.
  - intros Hen c'.
    destruct (enabled_generate_starts _ Hen) as [Hidle Hstart].
    pose proof (idle_nothing_inflight c Hinv Hidle) as Hnone.
    split; [exact Hidle | ].
    destruct Hidle as [_ He].
    unfold c', dispatch. rewrite Hstart, Hnone. simpl. auto.
  - intros Hen c'.
    destruct (enabled_enhance_starts _ Hen) as [Hidle Hstart].
    pose proof (idle_nothing_inflight c Hinv Hidle) as Hnone.
    split; [exact Hidle | ].
    destruct Hidle as [Hl _].
    unfold c', dispatch. rewrite Hstart, Hnone. simpl. auto.
  - intros P before r others Hcut.
    assert (Hnext : flags_agree {| state := settle P r (state c);
                                   inflight := (before ++ others)%list |}).
    { apply (step_keeps_flags_agree c); [exact Hinv | ].
      apply step_settle. exact Hcut. }
    unfold flags_agree in Hinv. rewrite Hcut in Hinv.
    destruct before as [ | b before]; simpl in Hinv.
    + destruct r as [cl | cl], others as [ | r' l]; try contradiction;
        exact (conj Hnext eq_refl).
    + destruct b, before; simpl in Hinv; contradiction.
Qed.

Lemma readyController_reachable : reachable readyController.
Proof.
  apply (reach_step measuredController).
  - apply (reach_step chosenController).
    + apply (reach_step initialController); [apply reach_initial | ].
      apply (step_edit initialController (ImageChange (Some sampleFile))).
    + apply (step_edit chosenController (ImageLoaded (of_Z 400) (of_Z 300))).
  - apply (step_edit measuredController (PromptChange "test")).
Qed.

Lemma readyController_enabled : generateDisabled (state readyController) = false.
Proof. vm_compute. reflexivity. Qed.

Lemma generatingController_reachable : reachable generatingController.
Proof.
  apply (reach_step readyController); [apply readyController_reachable | ].
  apply (step_generate readyController readyController_enabled).
Qed.

Lemma generatingController_inflight :
  inflight generatingController = ([] ++ [GenerateRequest readyState])%list.
Proof. vm_compute. reflexivity. Qed.

Lemma at_most_one_request_in_flight_witness :
  ~ (isLoading (state generatingController) = true
     /\ isEnhancing (state generatingController) = true)
  /\ idle (settle emptyCanvasPlatform (GenerateRequest readyState)
             (state generatingController))
  /\ idle (settle noKeyPlatform (GenerateRequest readyState)
             (state generatingController)).
Proof.
  destruct (at_most_one_request_in_flight generatingController
              generatingController_reachable) as (Hone & _ & _ & Hsettle).
  split; [exact Hone | split].
  - exact (proj1 (Hsettle emptyCanvasPlatform [] (GenerateRequest readyState) []
                    generatingController_inflight)).
  - exact (proj1 (Hsettle noKeyPlatform [] (GenerateRequest readyState) []
                    generatingController_inflight)).
Defined.

(* ================================================================= *)
(** * Further properties of the code *)

(** ** Edit request client: outcomes and calls *)

Lemma editImageWithGemini_with_key P part prompt :
  truthy (API_KEY P) = true ->
  editImageWithGemini P part prompt =
  match generateContent P part prompt with
  | ApiResponds parts =>
      ([NewGoogleGenAI (template (API_KEY P)); CallGenerateContent part prompt],
       Resolved (first_inline_image parts))
  | ApiRejects (ErrorObj m) =>
      ([NewGoogleGenAI (template (API_KEY P)); CallGenerateContent part prompt;
        ConsoleError],
       Rejected (ErrorObj ("Gemini API Error: " ++ m)))
  | ApiRejects NonError =>
      ([NewGoogleGenAI (template (API_KEY P)); CallGenerateContent part prompt;
        ConsoleError],
       Rejected (ErrorObj
         "An unknown error occurred while contacting the Gemini API."))
  end.
Proof.
  intros Hkey. unfold editImageWithGemini. rewrite Hkey.
  destruct (generateContent P part prompt) as [[m | ] | parts]; reflexivity.
Qed.

Lemma editImageWithGemini_without_key P part prompt :
  truthy (API_KEY P) = false ->
  editImageWithGemini P part prompt = ([], Rejected configuration_error).
Proof.
  intros Hkey. unfold editImageWithGemini. rewrite Hkey. reflexivity.
Qed.

Lemma editImageWithGemini_rejection_cases :
  forall (P : Platform) (part : Part) (prompt : string) (err : Thrown),
    outcome (editImageWithGemini P part prompt) = Rejected err ->
    (err = configuration_error
     /\ truthy (API_KEY P) = false
     /\ trace (editImageWithGemini P part prompt) = [])
    \/ (is_remote_failure err
        /\ truthy (API_KEY P) = true
        /\ exists raw,
             generateContent P part prompt = ApiRejects raw
             /\ err = match raw with
                      | ErrorObj m => ErrorObj ("Gemini API Error: " ++ m)
                      | NonError =>
                          ErrorObj
                            "An unknown error occurred while contacting the Gemini API."
                      end).
Proof.
  intros P part prompt err.
  destruct (truthy (API_KEY P)) eqn:Hkey.
  - rewrite (editImageWithGemini_with_key _ _ _ Hkey).
    destruct (generateContent P part prompt) as [[m | ] | parts];
      cbn [outcome snd]; intros [= <-]; right.
    + split; [left; exists m; reflexivity | ].
      split; [reflexivity | eexists; split; reflexivity].
    + split; [right; reflexivity | ].
      split; [reflexivity | eexists; split; reflexivity].
  - rewrite (editImageWithGemini_without_key _ _ _ Hkey).
    intros [= <-]. left. auto.
Qed.


(** X1. Whatever the platform does, a rejection of [editImageWithGemini] is
    of one of two kinds: the configuration error, thrown when the key is
    missing and before anything is done, or a remote failure, made of what
    the remote call was rejected with; what the remote call throws never
    leaves the function as it is. *)
Theorem editImageWithGemini_rejections :
  forall (P : Platform) (part : Part) (prompt : string) (err : Thrown),
    outcome (editImageWithGemini P part prompt) = Rejected err ->
    (err = configuration_error
     /\ truthy (API_KEY P) = false
     /\ trace (editImageWithGemini P part prompt) = [])
    \/ (is_remote_failure err
        /\ truthy (API_KEY P) = true
        /\ exists raw,
             generateContent P part prompt = ApiRejects raw
             /\ err = match raw with
                      | ErrorObj m => ErrorObj ("Gemini API Error: " ++ m)
                      | NonError =>
                          ErrorObj
                            "An unknown error occurred while contacting the Gemini API."
                      end).
Proof. exact editImageWithGemini_rejection_cases. Qed.

Lemma editImageWithGemini_rejections_witness :
  is_remote_failure (ErrorObj "Gemini API Error: quota exceeded").
Proof.
  destruct (editImageWithGemini_rejections failingPlatform
              (inlinePart "AAAA" "image/png") "test"
              (ErrorObj "Gemini API Error: quota exceeded") eq_refl)
    as [(H & _) | (H & _)]; [discriminate H | exact H].
Defined.

Lemma first_inline_image_none (parts : list Part) :
  first_inline_image parts = None <-> has_inline parts = false.
Proof.
  induction parts as [ | p rest IH]; simpl; [split; reflexivity | ].
  destruct (inlineData p); simpl; [split; discriminate | exact IH].
Qed.

Lemma first_inline_image_first (texts rest : list Part) (i : InlineData) (p : Part) :
  has_inline texts = false -> inlineData p = Some i ->
  first_inline_image (texts ++ p :: rest)
  = Some ("data:" ++ template (mimeType i) ++ ";base64," ++ template (data i)).
Proof.
  intros Htexts Hp. induction texts as [ | q texts IH]; simpl.
  - rewrite Hp. reflexivity.
  - simpl in Htexts. apply orb_false_iff in Htexts as [Hq Htexts].
    destruct (inlineData q); [discriminate Hq | auto].
Qed.

(** X2. With a key, when the remote call answers, [editImageWithGemini]
    resolves: with null exactly when no part of the answer carries inline
    data, and otherwise with the data URL made of the first part that does,
    the parts before it being skipped and those after it ignored. *)
Theorem editImageWithGemini_result :
  forall (P : Platform) (part : Part) (prompt : string) (parts : list Part),
    truthy (API_KEY P) = true ->
    generateContent P part prompt = ApiResponds parts ->
    (outcome (editImageWithGemini P part prompt) = Resolved None
     <-> has_inline parts = false)
    /\ (forall texts p rest i,
          parts = (texts ++ p :: rest)%list ->
          has_inline texts = false -> inlineData p = Some i ->
          outcome (editImageWithGemini P part prompt)
          = Resolved (Some ("data:" ++ template (mimeType i) ++ ";base64,"
                            ++ template (data i)))).
Proof.
  intros P part prompt parts Hkey Hresp.
  rewrite (editImageWithGemini_with_key _ _ _ Hkey), Hresp. cbn [outcome snd].
  split.
  - rewrite <- first_inline_image_none. split; [intros [= H] | intros H].
    + exact H.
    + rewrite H. reflexivity.
  - intros texts p rest i -> Htexts Hp.
    rewrite (first_inline_image_first _ _ _ _ Htexts Hp). reflexivity.
Qed.

Lemma editImageWithGemini_result_witness :
  outcome (editImageWithGemini textOnlyPlatform (inlinePart "AAAA" "image/png")
             "test")
  = Resolved None.
Proof.
  apply (proj1 (editImageWithGemini_result textOnlyPlatform
                  (inlinePart "AAAA" "image/png") "test" [textPart "no image"]
                  eq_refl eq_refl)).
  reflexivity.
Defined.

(** X3. With a key, one invocation builds one client, with that key, and
    sends one request, made of the image part and the prompt as they were
    given; this is so whether the remote call answers or fails: nothing is
    sent twice. *)
Theorem editImageWithGemini_one_call :
  forall (P : Platform) (part : Part) (prompt : string) (key : string),
    API_KEY P = Some key -> key <> "" ->
    clients (trace (editImageWithGemini P part prompt)) = [key]
    /\ calls (trace (editImageWithGemini P part prompt)) = [(part, prompt)].
Proof.
  intros P part prompt key Hkey Hne.
  assert (Ht : truthy (API_KEY P) = true).
  { rewrite Hkey. destruct key; [contradiction | reflexivity]. }
  rewrite (editImageWithGemini_with_key _ _ _ Ht), Hkey.
  destruct (generateContent P part prompt) as [[m | ] | parts];
    split; reflexivity.
Qed.

Lemma editImageWithGemini_one_call_witness :
  calls (trace (editImageWithGemini failingPlatform
                  (inlinePart "AAAA" "image/png") " make it blue "))
  = [(inlinePart "AAAA" "image/png", " make it blue ")].
Proof.
  apply (editImageWithGemini_one_call failingPlatform
           (inlinePart "AAAA" "image/png") " make it blue " "key" eq_refl).
  discriminate.
Defined.

(** ** Image codec: what the client builds, the codec reads back *)

Lemma has_char_app (c : ascii) (a b : string) :
  has_char c (a ++ b) = has_char c a || has_char c b.
Proof.
  induction a as [ | x a IH]; simpl; [reflexivity | ].
  rewrite IH. apply orb_assoc.
Qed.

Lemma append_assoc (a b c : string) : (a ++ b) ++ c = a ++ b ++ c.
Proof. induction a as [ | x a IH]; simpl; [ | rewrite IH]; reflexivity. Qed.

Lemma lazy_dot_semicolon_declared (m rest : string) :
  has_char ";" m = false -> has_line_terminator m = false ->
  lazy_dot_semicolon (m ++ String ";" rest) = Some m.
Proof.
  induction m as [ | a m IH]; simpl; [reflexivity | ].
  intros Hs Hl.
  apply orb_false_iff in Hs as [Ha Hs]. apply orb_false_iff in Hl as [Hb Hl].
  rewrite Ha, Hb, (IH Hs Hl). reflexivity.
Qed.

Lemma lazy_dot_semicolon_needs_semicolon (s g : string) :
  lazy_dot_semicolon s = Some g -> has_char ";" s = true.
Proof.
  revert g; induction s as [ | a r IH]; intros g; simpl; [discriminate | ].
  destruct (Ascii.eqb a ";"); [reflexivity | ]. simpl.
  destruct (is_line_terminator a); [discriminate | ].
  destruct (lazy_dot_semicolon r) as [g' | ]; [ | discriminate].
  intros _. eapply IH. reflexivity.
Qed.

Lemma match_data_none (group : string -> option string) (s : string) :
  (forall x g, group x = Some g -> has_char ";" x = true) ->
  has_char ";" s = false -> match_data group s = None.
Proof.
  intros Hgroup. induction s as [ | a r IH]; [reflexivity | ].
  intros H.
  assert (Hr : has_char ";" r = false).
  { simpl in H. apply orb_false_iff in H as [_ H]. exact H. }
  cbn [match_data].
  destruct (group (drop 5 (String a r))) as [g | ] eqn:E.
  - apply Hgroup in E. rewrite (has_char_drop ";" 5 _ H) in E. discriminate.
  - destruct (startsWith (String a r) "data:"); auto.
Qed.

Lemma dataUrlToGenerativePart_built (d m : string) :
  d <> "" -> has_char "," d = false ->
  has_char "," m = false -> has_char ";" m = false ->
  has_line_terminator m = false ->
  dataUrlToGenerativePart ("data:" ++ m ++ ";base64," ++ d)
  = ([], Resolved (inlinePart d m)).
Proof.
  intros Hd Hcd Hcm Hsm Hlm. unfold dataUrlToGenerativePart.
  assert (Hmime : match_data lazy_dot_semicolon ("data:" ++ m ++ ";base64," ++ d)
                  = Some m).
  { change ("data:" ++ m ++ ";base64," ++ d)
      with (String "d" (String "a" (String "t" (String "a" (String ":"
              (m ++ String ";" ("base64," ++ d))))))).
    unfold match_data, startsWith. simpl.
    rewrite lazy_dot_semicolon_declared by assumption. reflexivity. }
  assert (Hseg : index1 (split "," ("data:" ++ m ++ ";base64," ++ d)) = Some d).
  { apply index1_split. exists ("data:" ++ m ++ ";base64"), "".
    split; [ | split; [ | split; [assumption | left; reflexivity]]].
    - rewrite append_empty_r. simpl. do 5 f_equal.
      rewrite append_assoc. reflexivity.
    - change ("data:" ++ m ++ ";base64") with ("data:" ++ (m ++ ";base64")).
      rewrite !has_char_app, Hcm. reflexivity. }
  rewrite Hmime, Hseg.
  destruct d; [contradiction | reflexivity].
Qed.

(** X4. Round trip between the client and the codec: when the first part of
    the answer carries data [d] of type [m], the URL that
    [editImageWithGemini] resolves with is read back by
    [dataUrlToGenerativePart] as that very part.  It needs [d] non-empty and
    free of commas, and [m] free of commas, semicolons and line ends, as
    base64 data and MIME types are. *)
Theorem client_codec_round_trip :
  forall (P : Platform) (part : Part) (prompt : string) (d m : string)
         (rest : list Part),
    truthy (API_KEY P) = true ->
    generateContent P part prompt = ApiResponds (inlinePart d m :: rest) ->
    d <> "" -> has_char "," d = false ->
    has_char "," m = false -> has_char ";" m = false ->
    has_line_terminator m = false ->
    exists url,
      outcome (editImageWithGemini P part prompt) = Resolved (Some url)
      /\ dataUrlToGenerativePart url = ([], Resolved (inlinePart d m)).
Proof.
  intros P part prompt d m rest Hkey Hresp Hd Hcd Hcm Hsm Hlm.
  exists ("data:" ++ m ++ ";base64," ++ d). split.
  - rewrite (editImageWithGemini_with_key _ _ _ Hkey), Hresp. reflexivity.
  - apply dataUrlToGenerativePart_built; assumption.
Qed.

Lemma client_codec_round_trip_witness :
  exists url,
    outcome (editImageWithGemini emptyCanvasPlatform
               (inlinePart "BBBB" "image/jpeg") "test")
    = Resolved (Some url)
    /\ dataUrlToGenerativePart url = ([], Resolved (inlinePart "AAAA" "image/png")).
Proof.
  apply (client_codec_round_trip emptyCanvasPlatform
           (inlinePart "BBBB" "image/jpeg") "test" "AAAA" "image/png" []);
    solve [reflexivity | discriminate].
Defined.

(** X5. A data URL without any semicolon is given the type [image/png] by
    [dataUrlToGenerativePart], whatever stands after [data:]; the data is
    still the second comma-separated segment. *)
Theorem dataUrlToGenerativePart_default_mime :
  forall (dataUrl seg : string),
    has_char ";" dataUrl = false ->
    seg <> "" -> second_segment dataUrl seg ->
    dataUrlToGenerativePart dataUrl = ([], Resolved (inlinePart seg "image/png")).
Proof.
  intros dataUrl seg Hsemi Hne Hseg. unfold dataUrlToGenerativePart.
  rewrite (match_data_none _ _ lazy_dot_semicolon_needs_semicolon Hsemi).
  apply index1_split_segment in Hseg. rewrite Hseg.
  destruct seg; [contradiction | reflexivity].
Qed.

Lemma dataUrlToGenerativePart_default_mime_witness :
  dataUrlToGenerativePart "data:image/jpeg,AAAA"
  = ([], Resolved (inlinePart "AAAA" "image/png")).
Proof.
  apply dataUrlToGenerativePart_default_mime.
  - reflexivity.
  - discriminate.
  - exists "data:image/jpeg", "". repeat split; auto.
Defined.

(** ** Controller: what a click sends, and what it can answer *)

Section Readings.

Context {X : Type} (f : Event -> list X).

Lemma reading_bind {A B} (m : Eff A) (k : A -> Eff B) :
  flat_map f (trace (bind m k)) =
  match outcome m with
  | Resolved a => (flat_map f (trace m) ++ flat_map f (trace (k a)))%list
  | Rejected _ => flat_map f (trace m)
  end.
Proof.
  rewrite trace_bind. destruct (outcome m); [apply flat_map_app | reflexivity].
Qed.

Hypothesis f_console : f ConsoleError = [].
Hypothesis f_set : forall c, f (Set_ c) = [].

Lemma reading_guarded (body : Eff unit) (flag : SetCall) :
  flat_map f (trace (finally (try_catch body catch_to_error) [Set_ flag]))
  = flat_map f (trace body).
Proof.
  change (trace (finally (try_catch body catch_to_error) [Set_ flag]))
    with (trace (try_catch body catch_to_error) ++ [Set_ flag])%list.
  rewrite flat_map_app, trace_try_catch. simpl. rewrite f_set, !app_nil_r.
  destruct (outcome body) as [ | err]; [reflexivity | ].
  rewrite flat_map_app. simpl. rewrite f_console, f_set, !app_nil_r.
  reflexivity.
Qed.

End Readings.

Lemma resizeImage_calls P u w h : calls (trace (resizeImage P u w h)) = [].
Proof.
  unfold resizeImage. destruct (loadImage P u); [ | reflexivity].
  destruct (negb (getContext2d P w h)); reflexivity.
Qed.

Lemma processAndSetImage_calls P s u :
  calls (trace (processAndSetImage P s u)) = [].
Proof.
  unfold processAndSetImage.
  destruct (isResizingNeeded s); [ | reflexivity].
  destruct (originalDimensions s) as [od | ]; [ | reflexivity].
  destruct (targetSize s od) as [tw th].
  destruct (gt tw (of_Z 0) && gt th (of_Z 0)); [ | reflexivity].
  unfold calls. rewrite !reading_bind. simpl.
  fold (calls (trace (resizeImage P u tw th))). rewrite resizeImage_calls.
  destruct (outcome (resizeImage P u tw th)); reflexivity.
Qed.

Lemma requestImagePart_calls P s : calls (trace (requestImagePart P s)) = [].
Proof.
  unfold requestImagePart, fileToGenerativePart, dataUrlToGenerativePart.
  destruct (croppedImageUrl s) as [u | ], (originalImage s) as [file | ];
    try destruct (truthy_str u); try reflexivity;
    try (destruct (negb (truthy (index1 (split "," u)))); reflexivity);
    destruct (readAsDataURL P file) as [d | ]; try reflexivity;
    destruct (truthy (index1 (split "," d))); reflexivity.
Qed.

Lemma editImageWithGemini_calls P part prompt :
  calls (trace (editImageWithGemini P part prompt))
  = if truthy (API_KEY P) then [(part, prompt)] else [].
Proof.
  destruct (truthy (API_KEY P)) eqn:Hkey.
  - rewrite (editImageWithGemini_with_key _ _ _ Hkey).
    destruct (generateContent P part prompt) as [[m | ] | parts]; reflexivity.
  - rewrite (editImageWithGemini_without_key _ _ _ Hkey). reflexivity.
Qed.

(** The requests sent by the [try] block shared by the two handlers. *)
Lemma try_block_calls P (part : Eff Part) (after_api : string -> Eff unit)
    (msg prompt : string) :
  calls (trace part) = [] ->
  (forall u, calls (trace (after_api u)) = []) ->
  calls (trace
    (imagePart <- part ;;
     editedImageUrl <- editImageWithGemini P imagePart prompt ;;
     match editedImageUrl with
     | Some u => if truthy_str u then after_api u else throw (ErrorObj msg)
     | None => throw (ErrorObj msg)
     end))
  = match outcome part with
    | Resolved imagePart =>
        if truthy (API_KEY P) then [(imagePart, prompt)] else []
    | Rejected _ => []
    end.
Proof.
  intros Hpart Hafter. unfold calls in *. rewrite reading_bind, Hpart.
  destruct (outcome part) as [imagePart | err]; [ | reflexivity].
  rewrite reading_bind.
  fold (calls (trace (editImageWithGemini P imagePart prompt))).
  rewrite editImageWithGemini_calls. cbn [app].
  destruct (outcome (editImageWithGemini P imagePart prompt)) as [[u | ] | ].
  - destruct (truthy_str u); [rewrite Hafter | ]; apply app_nil_r.
  - apply app_nil_r.
  - reflexivity.
Qed.

Lemma handleGenerateClick_request_calls P s :
  calls (trace (handleGenerateClick_request P s))
  = match outcome (requestImagePart P s) with
    | Resolved imagePart =>
        if truthy (API_KEY P) then [(imagePart, prompt s)] else []
    | Rejected _ => []
    end.
Proof.
  unfold handleGenerateClick_request, calls.
  rewrite reading_guarded by reflexivity.
  apply (try_block_calls P (requestImagePart P s) (processAndSetImage P s)).
  - apply requestImagePart_calls.
  - intros u. apply processAndSetImage_calls.
Qed.

Lemma handleEnhanceClick_request_calls P s :
  calls (trace (handleEnhanceClick_request P s))
  = match outcome (requestImagePart P s) with
    | Resolved imagePart =>
        if truthy (API_KEY P) then [(imagePart, ENHANCE_PROMPT)] else []
    | Rejected _ => []
    end.
Proof.
  unfold handleEnhanceClick_request, calls.
  rewrite reading_guarded by reflexivity.
  apply (try_block_calls P (requestImagePart P s) (processAndSetImage P s)).
  - apply requestImagePart_calls.
  - intros u. apply processAndSetImage_calls.
Qed.

Lemma handleGenerateClick_calls_eq :
  forall (P : Platform) (s : AppState),
    calls (trace (handleGenerateClick P s))
    = (if (isSome (originalImage s) || truthy (croppedImageUrl s))
          && truthy_str (trim (prompt s))
       then match outcome (requestImagePart P s) with
            | Resolved imagePart =>
                if truthy (API_KEY P) then [(imagePart, prompt s)] else []
            | Rejected _ => []
            end
       else [])
    /\ (List.length (calls (trace (handleGenerateClick P s))) <= 1)%nat.
Proof.
  intros P s.
  assert (E : calls (trace (handleGenerateClick P s))
              = (if (isSome (originalImage s) || truthy (croppedImageUrl s))
                    && truthy_str (trim (prompt s))
                 then calls (trace (handleGenerateClick_request P s))
                 else [])).
  { unfold handleGenerateClick, handleGenerateClick_start, calls.
    rewrite reading_bind.
    destruct (isSome (originalImage s)), (truthy (croppedImageUrl s)),
      (truthy_str (trim (prompt s))); reflexivity. }
  rewrite E, handleGenerateClick_request_calls. split; [reflexivity | ].
  destruct ((isSome (originalImage s) || truthy (croppedImageUrl s))
            && truthy_str (trim (prompt s))); [ | simpl; lia].
  destruct (outcome (requestImagePart P s)); [ | simpl; lia].
  destruct (truthy (API_KEY P)); simpl; lia.
Qed.

(** X6. A click on Generate sends the remote service at most one request.
    It sends one exactly when the guard lets the click through (an image or
    a crop is there and the prompt is not blank), the image part could be
    made and the key is set; the request then carries that part and the
    prompt as typed, untrimmed.  In every other case nothing is sent. *)
Theorem handleGenerateClick_calls :
  forall (P : Platform) (s : AppState),
    calls (trace (handleGenerateClick P s))
    = (if (isSome (originalImage s) || truthy (croppedImageUrl s))
          && truthy_str (trim (prompt s))
       then match outcome (requestImagePart P s) with
            | Resolved imagePart =>
                if truthy (API_KEY P) then [(imagePart, prompt s)] else []
            | Rejected _ => []
            end
       else [])
    /\ (List.length (calls (trace (handleGenerateClick P s))) <= 1)%nat.
Proof. exact handleGenerateClick_calls_eq. Qed.

(** X7. Auto Enhance, with an image or a crop there: the invocation ends
    resolved, with [isEnhancing] false, [isLoading] untouched, and exactly
    one of the edited image and the message set.  The request it sends, if
    any, carries the built-in instruction; what is typed in the prompt
    field, even nothing, changes nothing to what the handler does. *)
Theorem handleEnhanceClick_image_xor_error :
  forall (P : Platform) (s : AppState),
    isSome (originalImage s) || truthy (croppedImageUrl s) = true ->
    outcome (handleEnhanceClick P s) = Resolved tt
    /\ isEnhancing (after (handleEnhanceClick P s) s) = false
    /\ isLoading (after (handleEnhanceClick P s) s) = isLoading s
    /\ ((exists v,
           editedImage (after (handleEnhanceClick P s) s) = Some v
           /\ error (after (handleEnhanceClick P s) s) = None)
        \/ (exists m,
              m <> ""
              /\ error (after (handleEnhanceClick P s) s) = Some m
              /\ editedImage (after (handleEnhanceClick P s) s) = None))
    /\ calls (trace (handleEnhanceClick P s))
       = match outcome (requestImagePart P s) with
         | Resolved imagePart =>
             if truthy (API_KEY P) then [(imagePart, ENHANCE_PROMPT)] else []
         | Rejected _ => []
         end
    /\ forall typed, handleEnhanceClick P (set_prompt typed s)
                     = handleEnhanceClick P s.
Proof.
  intros P s Himg.
  assert (Hstart : handleEnhanceClick_start s
                   = ([Set_ (SetIsEnhancing true); Set_ (SetError None);
                       Set_ (SetEditedImage None)], Resolved true)).
  { unfold handleEnhanceClick_start.
    destruct (isSome (originalImage s)), (truthy (croppedImageUrl s));
      try discriminate Himg; reflexivity. }
  assert (Hcalls : calls (trace (handleEnhanceClick P s))
                   = calls (trace (handleEnhanceClick_request P s))).
  { unfold handleEnhanceClick, calls. rewrite reading_bind, Hstart.
    reflexivity. }
  assert (Htyped : forall typed, handleEnhanceClick P (set_prompt typed s)
                                 = handleEnhanceClick P s)
    by (intros typed; reflexivity).
  assert (Hstate :
    outcome (handleEnhanceClick P s) = Resolved tt
    /\ isEnhancing (after (handleEnhanceClick P s) s) = false
    /\ isLoading (after (handleEnhanceClick P s) s) = isLoading s
    /\ ((exists v,
           editedImage (after (handleEnhanceClick P s) s) = Some v
           /\ error (after (handleEnhanceClick P s) s) = None)
        \/ (exists m,
              m <> ""
              /\ error (after (handleEnhanceClick P s) s) = Some m
              /\ editedImage (after (handleEnhanceClick P s) s) = None))).
  { unfold after, handleEnhanceClick.
    rewrite trace_bind, outcome_bind, Hstart. cbn [outcome trace fst snd].
    split; [apply guarded_request_outcome | ].
    rewrite run_sets_app.
    destruct (run_request_sets _
                (run_sets [Set_ (SetIsEnhancing true); Set_ (SetError None);
                           Set_ (SetEditedImage None)] s)
                _ (handleEnhanceClick_request_sets P s))
      as [(v & ->) | (m & Hm & ->)].
    - split; [reflexivity | split; [reflexivity | ]].
      left; exists v; split; reflexivity.
    - split; [reflexivity | split; [reflexivity | ]].
      right; exists m; repeat split; assumption. }
  destruct Hstate as (H1 & H2 & H3 & H4).
  rewrite Hcalls, handleEnhanceClick_request_calls.
  split; [exact H1 | split; [exact H2 | split; [exact H3 | ]]].
  split; [exact H4 | split; [reflexivity | exact Htyped]].
Qed.

Lemma handleEnhanceClick_image_xor_error_witness :
  isEnhancing (after (handleEnhanceClick emptyCanvasPlatform
                        (set_prompt "" readyState)) (set_prompt "" readyState))
  = false.
Proof.
  apply (handleEnhanceClick_image_xor_error emptyCanvasPlatform
           (set_prompt "" readyState)).
  reflexivity.
Defined.

Lemma rejects_bind {A B} (R : Thrown -> Prop) (m : Eff A) (k : A -> Eff B) :
  rejects_within R m -> (forall a, rejects_within R (k a)) ->
  rejects_within R (bind m k).
Proof.
  unfold rejects_within. intros Hm Hk err. rewrite outcome_bind.
  destruct (outcome m) as [a | e] eqn:E; [apply Hk | ].
  intros [= <-]. apply Hm. reflexivity.
Qed.

Lemma fileToGenerativePart_rejections P file :
  rejects_within (fun err => generate_message (shown err))
    (fileToGenerativePart P file).
Proof.
  unfold rejects_within, fileToGenerativePart. intros err.
  destruct (readAsDataURL P file) as [d | ].
  - destruct (truthy (index1 (split "," d)));
      cbn; intros [= <-]; left; simpl; tauto.
  - cbn. intros [= <-]. left. simpl. tauto.
Qed.

Lemma dataUrlToGenerativePart_rejections u :
  rejects_within (fun err => generate_message (shown err))
    (dataUrlToGenerativePart u).
Proof.
  unfold rejects_within, dataUrlToGenerativePart. intros err.
  destruct (negb (truthy (index1 (split "," u))));
    cbn; intros [= <-]; left; simpl; tauto.
Qed.

Lemma requestImagePart_rejections P s :
  isSome (originalImage s) || truthy (croppedImageUrl s) = true ->
  rejects_within (fun err => generate_message (shown err)) (requestImagePart P s).
Proof.
  unfold requestImagePart. intros Himg.
  destruct (croppedImageUrl s) as [u | ], (originalImage s) as [file | ];
    simpl in Himg.
  - destruct (truthy_str u);
      [apply dataUrlToGenerativePart_rejections
      | apply fileToGenerativePart_rejections].
  - rewrite Himg. apply dataUrlToGenerativePart_rejections.
  - apply fileToGenerativePart_rejections.
  - discriminate Himg.
Qed.

Lemma editImageWithGemini_shown P part prompt :
  rejects_within (fun err => generate_message (shown err))
    (editImageWithGemini P part prompt).
Proof.
  intros err Herr.
  destruct (editImageWithGemini_rejection_cases P part prompt err Herr)
    as [(-> & _) | ([[m ->] | ->] & _)].
  - left. simpl. tauto.
  - right. exists m. reflexivity.
  - left. simpl. tauto.
Qed.

Lemma processAndSetImage_rejections P s u :
  rejects_within (fun err => generate_message (shown err))
    (processAndSetImage P s u).
Proof.
  unfold processAndSetImage.
  destruct (isResizingNeeded s); [ | intros err H; discriminate H].
  destruct (originalDimensions s) as [od | ]; [ | intros err H; discriminate H].
  destruct (targetSize s od) as [tw th].
  destruct (gt tw (of_Z 0) && gt th (of_Z 0)); [ | intros err H; discriminate H].
  apply rejects_bind; [intros err H; discriminate H | intros _].
  apply rejects_bind; [ | intros v err H; discriminate H].
  intros err. rewrite resizeImage_outcome.
  destruct (loadImage P u); [destruct (getContext2d P tw th) | ];
    intros [= <-]; left; simpl; tauto.
Qed.

Lemma generate_try_rejections P s :
  isSome (originalImage s) || truthy (croppedImageUrl s) = true ->
  rejects_within (fun err => generate_message (shown err))
    (imagePart <- requestImagePart P s ;;
     editedImageUrl <- editImageWithGemini P imagePart (prompt s) ;;
     match editedImageUrl with
     | Some u =>
         if truthy_str u then processAndSetImage P s u
         else throw (ErrorObj
           "The API did not return an image. Please try a different prompt.")
     | None =>
         throw (ErrorObj
           "The API did not return an image. Please try a different prompt.")
     end).
Proof.
  intros Himg.
  apply rejects_bind; [apply requestImagePart_rejections; exact Himg | ].
  intros imagePart.
  apply rejects_bind; [apply editImageWithGemini_shown | ].
  intros [u | ].
  - destruct (truthy_str u); [apply processAndSetImage_rejections | ].
    intros err [= <-]. left. simpl. tauto.
  - intros err [= <-]. left. simpl. tauto.
Qed.

Lemma guarded_request_error (R : Thrown -> Prop) (body : Eff unit)
    (flag : SetCall) :
  stores_or_fails body -> rejects_within R body ->
  (exists v,
     sets (trace (finally (try_catch body catch_to_error) [Set_ flag]))
     = [SetEditedImage (Some v); flag])
  \/ (exists err,
        R err
        /\ sets (trace (finally (try_catch body catch_to_error) [Set_ flag]))
           = [SetError (Some (shown err)); flag]).
Proof.
  assert (E : trace (finally (try_catch body catch_to_error) [Set_ flag])
              = (trace (try_catch body catch_to_error) ++ [Set_ flag])%list)
    by reflexivity.
  rewrite E. clear E.
  intros [(v & Ho & Hs) | (err & Ho & Hs)] HR;
    rewrite sets_app, trace_try_catch, Ho.
  - left. exists v. rewrite Hs. reflexivity.
  - right. exists err. split; [apply HR; exact Ho | ].
    rewrite sets_app, Hs. reflexivity.
Qed.

Lemma generate_message_not_dead (m : string) :
  generate_message m -> m <> "No image available to process.".
Proof.
  intros [H | [x ->]]; [ | discriminate].
  simpl in H. intuition (subst; discriminate).
Qed.

(** X8. The message [handleGenerateClick] leaves in [error], when it
    leaves one, is one of: the guard's request for an image and a prompt;
    the two decoding errors of the codec; the generic message (for a
    rejection that carries none, as a failed file read); the configuration
    error; a remote failure; the absence of an image in the answer; the two
    errors of [resizeImage].  The handler's own "No image available to
    process." is never shown: its guard has returned before. *)
Theorem handleGenerateClick_messages :
  forall (P : Platform) (s : AppState) (m : string),
    error (after (handleGenerateClick P s) s) = Some m ->
    generate_message m /\ m <> "No image available to process.".
Proof.
  intros P s m Herr.
  assert (Hm : generate_message m); [ | split; [exact Hm | ]].
  2: { apply generate_message_not_dead; exact Hm. }
  destruct ((isSome (originalImage s) || truthy (croppedImageUrl s))
            && truthy_str (trim (prompt s))) eqn:Hguard.
  - apply andb_true_iff in Hguard as [Himg Hprompt].
    assert (Hstart : handleGenerateClick_start s
                     = ([Set_ (SetIsLoading true); Set_ (SetError None);
                         Set_ (SetEditedImage None)], Resolved true)).
    { unfold handleGenerateClick_start. rewrite Hprompt.
      destruct (isSome (originalImage s)), (truthy (croppedImageUrl s));
        try discriminate Himg; reflexivity. }
    unfold after, handleGenerateClick in Herr.
    rewrite trace_bind, Hstart in Herr. cbn [outcome trace fst snd] in Herr.
    rewrite run_sets_app, run_sets_fold in Herr.
    assert (Hcase :
      (exists v, sets (trace (handleGenerateClick_request P s))
                 = [SetEditedImage (Some v); SetIsLoading false])
      \/ (exists err,
            generate_message (shown err)
            /\ sets (trace (handleGenerateClick_request P s))
               = [SetError (Some (shown err)); SetIsLoading false])).
    { exact (guarded_request_error _ _ (SetIsLoading false)
               (generate_try_stores P (processAndSetImage P s) _ (prompt s)
                  (processAndSetImage_stores P s) _
                  (requestImagePart_quiet P s))
               (generate_try_rejections P s Himg)). }
    destruct Hcase as [(v & Hsets) | (err & HR & Hsets)];
      rewrite Hsets in Herr.
    + discriminate Herr.
    + injection Herr as <-. exact HR.
  - assert (Hstart : handleGenerateClick P s
                     = ([Set_ (SetError
                                 (Some "Please upload an image and enter a prompt."))],
                        Resolved tt)).
    { unfold handleGenerateClick, handleGenerateClick_start.
      destruct (isSome (originalImage s)), (truthy (croppedImageUrl s)),
        (truthy_str (trim (prompt s))); try discriminate Hguard; reflexivity. }
    unfold after in Herr. rewrite Hstart in Herr. injection Herr as <-.
    left. simpl. tauto.
Qed.

Lemma handleGenerateClick_messages_witness :
  generate_message "Gemini API Error: quota exceeded".
Proof.
  apply (handleGenerateClick_messages quotaPlatform readyState).
  vm_compute. reflexivity.
Defined.

Lemma requestImagePart_file P s file :
  originalImage s = Some file -> truthy (croppedImageUrl s) = false ->
  requestImagePart P s = fileToGenerativePart P file.
Proof.
  intros Himg Hcrop. unfold requestImagePart. rewrite Himg.
  destruct (croppedImageUrl s) as [u | ]; [ | reflexivity].
  simpl in Hcrop. rewrite Hcrop. reflexivity.
Qed.

(** X9. When the file cannot be read, the reader's rejection is the event,
    which has no message: the click ends with the generic message in
    [error], no edited image, [isLoading] false, the file handed to the
    reader once and nothing sent to the remote service. *)
Theorem handleGenerateClick_failed_read :
  forall (P : Platform) (s : AppState) (file : File),
    originalImage s = Some file ->
    truthy (croppedImageUrl s) = false ->
    trim (prompt s) <> "" ->
    readAsDataURL P file = None ->
    error (after (handleGenerateClick P s) s)
    = Some "An unexpected error occurred."
    /\ editedImage (after (handleGenerateClick P s) s) = None
    /\ isLoading (after (handleGenerateClick P s) s) = false
    /\ reads (trace (handleGenerateClick P s)) = [file]
    /\ calls (trace (handleGenerateClick P s)) = [].
Proof.
  intros P s file Himg Hcrop Hprompt Hread.
  apply nonblank_truthy in Hprompt.
  assert (E : handleGenerateClick P s
              = ([Set_ (SetIsLoading true); Set_ (SetError None);
                  Set_ (SetEditedImage None); CallReadAsDataURL file;
                  ConsoleError;
                  Set_ (SetError (Some "An unexpected error occurred."));
                  Set_ (SetIsLoading false)], Resolved tt)).
  { unfold handleGenerateClick, handleGenerateClick_start,
      handleGenerateClick_request.
    rewrite (requestImagePart_file P s file Himg Hcrop), Himg, Hprompt.
    unfold fileToGenerativePart. rewrite Hread. reflexivity. }
  unfold after. rewrite E. repeat split.
Qed.

Lemma handleGenerateClick_failed_read_witness :
  error (after (handleGenerateClick failingPlatform readyState) readyState)
  = Some "An unexpected error occurred.".
Proof.
  apply (handleGenerateClick_failed_read failingPlatform readyState sampleFile).
  - reflexivity.
  - reflexivity.
  - vm_compute. discriminate.
  - reflexivity.
Defined.

(** ** Controller: invariants of the transition system *)

Lemma edit_keeps_result (e : Edit) (s : AppState) :
  (editedImage (edit e s) = editedImage s /\ error (edit e s) = error s)
  \/ (editedImage (edit e s) = None /\ error (edit e s) = None).
Proof.
  destruct e; simpl; auto.
  - destruct file; simpl; auto.
  - unfold handleApplyCrop.
    destruct (completedCrop s), drawn; simpl; auto.
Qed.

Lemma adjustmentEffect_keeps_result P nts rendered isMounted (s : AppState) :
  let s' := run_sets (trace (adjustmentEffect P nts rendered isMounted)) s in
  editedImage s' = editedImage s /\ error s' = error s.
Proof.
  unfold adjustmentEffect, applyAdjustments.
  destruct (editedImage rendered) as [e | ]; [ | simpl; auto].
  destruct (truthy_str e); [ | simpl; auto].
  destruct (strict_neq (contrast rendered) (of_Z 100)); [ | simpl; auto].
  unfold applyCanvasFilter.
  destruct (loadImage P e) as [[w h] | ]; [ | destruct isMounted; simpl; auto].
  destruct (getContext2d P w h), isMounted; simpl; auto.
Qed.

Lemma settle_result P (r : Request) (s : AppState) :
  editedImage s = None -> error s = None ->
  editedImage (settle P r s) = None \/ error (settle P r s) = None.
Proof.
  intros He Hr. destruct r as [cl | cl]; unfold settle.
  - destruct (run_request_sets _ s _ (handleGenerateClick_request_sets P cl))
      as [(v & ->) | (m & _ & ->)]; simpl; auto.
  - destruct (run_request_sets _ s _ (handleEnhanceClick_request_sets P cl))
      as [(v & ->) | (m & _ & ->)]; simpl; auto.
Qed.

Lemma step_keeps_result_consistent (c c' : Controller) :
  flags_agree c -> result_consistent c -> step c c' -> result_consistent c'.
Proof.
  intros Hflags Hinv Hstep. destruct Hstep as
    [c Hen | c Hen | c P before r others Hcut | c e | c P nts rendered m].
  - destruct (enabled_generate_starts _ Hen) as [Hidle Hstart].
    pose proof (idle_nothing_inflight c Hflags Hidle) as Hnone.
    unfold result_consistent, dispatch. rewrite Hstart, Hnone. simpl. auto.
  - destruct (enabled_enhance_starts _ Hen) as [Hidle Hstart].
    pose proof (idle_nothing_inflight c Hflags Hidle) as Hnone.
    unfold result_consistent, dispatch. rewrite Hstart, Hnone. simpl. auto.
  - unfold result_consistent, flags_agree in *. rewrite Hcut in Hinv, Hflags.
    cbn [inflight state].
    destruct before as [ | b before]; simpl in *.
    + destruct others as [ | r' l].
      * destruct Hinv as [He Hr]. apply settle_result; assumption.
      * destruct r; contradiction.
    + destruct b, before; simpl in Hflags; contradiction.
  - unfold result_consistent in *. cbn [inflight state].
    destruct (edit_keeps_result e (state c)) as [[-> ->] | [-> ->]];
      [exact Hinv | destruct (inflight c); auto].
  - unfold result_consistent in *. cbn [inflight state].
    destruct (adjustmentEffect_keeps_result P nts rendered m (state c))
      as [-> ->].
    exact Hinv.
Qed.

Lemma reachable_result_consistent (c : Controller) :
  reachable c -> result_consistent c.
Proof.
  induction 1 as [ | c c' Hreach IH Hstep].
  - left. reflexivity.
  - apply (step_keeps_result_consistent c c');
      [apply reachable_flags_agree | | ]; assumption.
Qed.

(** X10. Through every sequence of clicks, answers of the platform and
    other events of the page, the edited image and the error message are
    never both set; and as long as a request is in flight neither is set. *)
Theorem reachable_image_xor_error :
  forall c : Controller,
    reachable c ->
    ~ (editedImage (state c) <> None /\ error (state c) <> None)
    /\ (inflight c <> [] ->
        editedImage (state c) = None /\ error (state c) = None).
Proof.
  intros c Hreach. pose proof (reachable_result_consistent c Hreach) as Hinv.
  unfold result_consistent in Hinv. split.
  - intros [He Hr]. destruct (inflight c); [destruct Hinv | destruct Hinv];
      contradiction.
  - intros Hne. destruct (inflight c); [contradiction | exact Hinv].
Qed.

Lemma reachable_image_xor_error_witness :
  editedImage (state generatingController) = None
  /\ error (state generatingController) = None.
Proof.
  apply (proj2 (reachable_image_xor_error generatingController
                  generatingController_reachable)).
  rewrite generatingController_inflight. discriminate.
Defined.

(** X11. In every reachable state at most one request is in flight; one is
    in flight exactly when one of the two flags is raised, and both buttons
    are then disabled, so that no second request can be started before the
    first has settled. *)
Theorem reachable_single_request :
  forall c : Controller,
    reachable c ->
    (List.length (inflight c) <= 1)%nat
    /\ (inflight c <> [] <-> isLoading (state c) || isEnhancing (state c) = true)
    /\ (inflight c <> [] ->
        generateDisabled (state c) = true /\ enhanceDisabled (state c) = true).
Proof.
  intros c Hreach. pose proof (reachable_flags_agree c Hreach) as Hinv.
  unfold flags_agree in Hinv. unfold generateDisabled, enhanceDisabled.
  destruct (inflight c) as [ | [cl | cl] [ | r l]]; try contradiction;
    destruct Hinv as [-> ->]; simpl.
  - split; [lia | split; [split; [congruence | discriminate] | congruence]].
  - split; [lia | split; [split; [reflexivity | discriminate] | auto]].
  - split; [lia | split; [split; [reflexivity | discriminate] | auto]].
Qed.

Lemma reachable_single_request_witness :
  generateDisabled (state generatingController) = true
  /\ enhanceDisabled (state generatingController) = true.
Proof.
  apply (proj2 (proj2 (reachable_single_request generatingController
                         generatingController_reachable))).
  rewrite generatingController_inflight. discriminate.
Defined.

(** ** Controller: the adjustment effect *)

(** X12. With an edit result in place, the adjustment effect never fails
    and calls the canvas filter exactly when the contrast differs from 100,
    once, with [contrast(N%)].  If its flag is still up when the filter
    settles, it stores the filtered image, or the edit result itself when
    the filter was rejected; if the flag has been lowered (the effect was
    superseded or the page left), it stores nothing. *)
Theorem adjustmentEffect_fallback :
  forall (P : Platform) (number_to_string : number -> string) (s : AppState)
         (result : string) (isMounted : bool),
    editedImage s = Some result ->
    result <> "" ->
    let filter := "contrast(" ++ number_to_string (contrast s) ++ "%)" in
    let effect := adjustmentEffect P number_to_string s isMounted in
    outcome effect = Resolved tt
    /\ filters (trace effect)
       = (if strict_neq (contrast s) (of_Z 100) then [(result, filter)] else [])
    /\ sets (trace effect)
       = (if strict_neq (contrast s) (of_Z 100) then
            if isMounted then
              [SetFinalImage
                 (Some match outcome (applyCanvasFilter P result filter) with
                       | Resolved filtered => filtered
                       | Rejected _ => result
                       end)]
            else []
          else [SetFinalImage (Some result)]).
Proof.
  intros P nts s result isMounted Hres Hne filter effect.
  unfold effect, filter, adjustmentEffect, applyAdjustments. rewrite Hres.
  assert (Ht : truthy_str result = true)
    by (destruct result; [contradiction | reflexivity]).
  rewrite Ht.
  destruct (strict_neq (contrast s) (of_Z 100)); [ | repeat split].
  rewrite applyCanvasFilter_outcome. unfold applyCanvasFilter.
  destruct (loadImage P result) as [[w h] | ].
  - destruct (getContext2d P w h), isMounted; repeat split.
  - destruct isMounted; repeat split.
Qed.

Lemma adjustmentEffect_fallback_witness :
  sets (trace (adjustmentEffect noDecodePlatform (fun _ => "150")
                 (set_contrast (of_Z 150)
                    (set_editedImage (Some "data:image/png;base64,AAAA")
                       initialState))
                 true))
  = [SetFinalImage (Some "data:image/png;base64,AAAA")].
Proof.
  destruct (adjustmentEffect_fallback noDecodePlatform (fun _ => "150")
              (set_contrast (of_Z 150)
                 (set_editedImage (Some "data:image/png;base64,AAAA")
                    initialState))
              "data:image/png;base64,AAAA" true eq_refl)
    as (_ & _ & H); [discriminate | ].
  rewrite H. vm_compute. reflexivity.
Defined.

(** ** Controller: when the result is resized *)

Lemma strict_neq_same (x : number) : is_nan x = false -> strict_neq x x = false.
Proof.
  unfold strict_neq, SFeqb, SFcompare.
  destruct x as [[ | ] | [ | ] | | [ | ] m e]; try reflexivity; try discriminate;
    intros _; rewrite Z.compare_refl, Pos.compare_cont_refl; reflexivity.
Qed.

Lemma strict_neq_hundred : strict_neq (of_Z 100) (of_Z 100) = false.
Proof. vm_compute. reflexivity. Qed.

Lemma processAndSetImage_not_needed P s url :
  isResizingNeeded s = false ->
  processAndSetImage P s url = ([Set_ (SetEditedImage (Some url))], Resolved tt).
Proof. intros H. unfold processAndSetImage. rewrite H. reflexivity. Qed.

(** X13. Right after an image has been chosen and measured, and right
    after a crop has been applied, the resize options ask for nothing
    (whatever the mode, the sizes being numbers): an image that comes back
    from the service is then stored as it is, [resizeImage] not called. *)
Theorem no_resize_after_measure_or_crop :
  forall (P : Platform) (s : AppState) (url : string),
    (forall file w h,
       is_nan w = false -> is_nan h = false ->
       let s' := handleImageChange_onload (handleImageChange s (Some file)) w h in
       isResizingNeeded s' = false
       /\ processAndSetImage P s' url
          = ([Set_ (SetEditedImage (Some url))], Resolved tt))
    /\ (forall c drawn,
          completedCrop s = Some c ->
          is_nan (c_width c) = false -> is_nan (c_height c) = false ->
          let s' := handleApplyCrop s (Some drawn) in
          isResizingNeeded s' = false
          /\ processAndSetImage P s' url
             = ([Set_ (SetEditedImage (Some url))], Resolved tt)).
Proof.
  intros P s url. split.
  - intros file w h Hw Hh s'.
    assert (H : isResizingNeeded s' = false).
    { unfold s', isResizingNeeded, sourceWidth, sourceHeight. simpl.
      destruct (mode (resizeOptions s)); simpl.
      - apply strict_neq_hundred.
      - rewrite (strict_neq_same w Hw), (strict_neq_same h Hh). reflexivity. }
    split; [exact H | apply processAndSetImage_not_needed; exact H].
  - intros c drawn Hc Hw Hh s'.
    assert (H : isResizingNeeded s' = false).
    { unfold s', handleApplyCrop, isResizingNeeded, sourceWidth, sourceHeight.
      rewrite Hc. simpl. rewrite Hc.
      destruct (mode (resizeOptions s)); simpl.
      - apply strict_neq_hundred.
      - rewrite (strict_neq_same _ Hw), (strict_neq_same _ Hh). reflexivity. }
    split; [exact H | apply processAndSetImage_not_needed; exact H].
Qed.

Lemma no_resize_after_measure_or_crop_witness :
  isResizingNeeded
    (handleImageChange_onload (handleImageChange initialState (Some sampleFile))
       (of_Z 400) (of_Z 300))
  = false.
Proof.
  apply (proj1 (no_resize_after_measure_or_crop emptyCanvasPlatform initialState
                  "data:image/png;base64,AAAA") sampleFile (of_Z 400) (of_Z 300));
    reflexivity.
Defined.

(** X14. In the dimensions mode, a width or a height field that is emptied
    (its value is NaN) or set to zero is stored as zero, and a result that
    then comes back is stored unresized: [resizeImage] is not called and no
    error is raised. *)
Theorem empty_dimension_never_resizes :
  forall (P : Platform) (s : AppState) (valueAsNumber : number) (url : string),
    mode (resizeOptions s) = mode_dimensions ->
    truthy_num valueAsNumber = false ->
    (width (resizeOptions (edit (WidthChange valueAsNumber) s)) = of_Z 0
     /\ processAndSetImage P (edit (WidthChange valueAsNumber) s) url
        = ([Set_ (SetEditedImage (Some url))], Resolved tt))
    /\ (height (resizeOptions (edit (HeightChange valueAsNumber) s)) = of_Z 0
        /\ processAndSetImage P (edit (HeightChange valueAsNumber) s) url
           = ([Set_ (SetEditedImage (Some url))], Resolved tt)).
Proof.
  intros P s v url Hmode Hv.
  assert (Hw : width (handleWidthChange s v) = of_Z 0
               /\ mode (handleWidthChange s v) = mode_dimensions).
  { unfold handleWidthChange, or_num. rewrite Hv.
    destruct (sourceDims s); [destruct (isAspectRatioLocked (resizeOptions s)) | ];
      simpl; auto. }
  assert (Hh : height (handleHeightChange s v) = of_Z 0
               /\ mode (handleHeightChange s v) = mode_dimensions).
  { unfold handleHeightChange, or_num. rewrite Hv.
    destruct (sourceDims s); [destruct (isAspectRatioLocked (resizeOptions s)) | ];
      simpl; auto. }
  destruct Hw as [Hw Hwm], Hh as [Hh Hhm].
  split; (split; [assumption | ]).
  - unfold processAndSetImage.
    destruct (isResizingNeeded (edit (WidthChange v) s)); [ | reflexivity].
    destruct (originalDimensions (edit (WidthChange v) s)) as [od | ];
      [ | reflexivity].
    unfold targetSize. simpl. rewrite Hwm, Hw. reflexivity.
  - unfold processAndSetImage.
    destruct (isResizingNeeded (edit (HeightChange v) s)); [ | reflexivity].
    destruct (originalDimensions (edit (HeightChange v) s)) as [od | ];
      [ | reflexivity].
    unfold targetSize. simpl. rewrite Hhm, Hh.
    match goal with
    | |- context [gt ?a ?b && _] => destruct (gt a b)
    end; reflexivity.
Qed.

Lemma empty_dimension_never_resizes_witness :
  processAndSetImage emptyCanvasPlatform
    (edit (WidthChange NaN) (edit (ResizeModeChange mode_dimensions) readyState))
    "data:image/png;base64,BBBB"
  = ([Set_ (SetEditedImage (Some "data:image/png;base64,BBBB"))], Resolved tt).
Proof.
  apply (empty_dimension_never_resizes emptyCanvasPlatform
           (edit (ResizeModeChange mode_dimensions) readyState) NaN
           "data:image/png;base64,BBBB"); reflexivity.
Defined.

(** X15. When a resize is needed and both target sizes are positive,
    [processAndSetImage] calls [resizeImage] once, on the image it was
    given and with the computed target.  What is stored is the resized
    image; when [resizeImage] is rejected nothing is stored, the image
    received is not kept in its stead, and the rejection is passed on. *)
Theorem processAndSetImage_resizes :
  forall (P : Platform) (s : AppState) (url : string) (od : Dimensions)
         (targetWidth targetHeight : number),
    isResizingNeeded s = true ->
    originalDimensions s = Some od ->
    targetSize s od = (targetWidth, targetHeight) ->
    gt targetWidth (of_Z 0) && gt targetHeight (of_Z 0) = true ->
    resizes (trace (processAndSetImage P s url))
    = [(url, targetWidth, targetHeight)]
    /\ (sets (trace (processAndSetImage P s url)),
        outcome (processAndSetImage P s url))
       = match outcome (resizeImage P url targetWidth targetHeight) with
         | Resolved resized => ([SetEditedImage (Some resized)], Resolved tt)
         | Rejected err => ([], Rejected err)
         end.
Proof.
  intros P s url od tw th Hneed Hod Hsize Hpos.
  unfold processAndSetImage. rewrite Hneed, Hod, Hsize, Hpos.
  rewrite resizeImage_outcome. unfold resizeImage.
  destruct (loadImage P url); [destruct (getContext2d P tw th) | ];
    split; reflexivity.
Qed.

Lemma processAndSetImage_resizes_witness :
  resizes (trace (processAndSetImage emptyCanvasPlatform
                    (edit (PercentageChange (of_Z 50)) readyState)
                    "data:image/png;base64,BBBB"))
  = [("data:image/png;base64,BBBB", of_Z 200, of_Z 150)].
Proof.
  apply (processAndSetImage_resizes emptyCanvasPlatform
           (edit (PercentageChange (of_Z 50)) readyState)
           "data:image/png;base64,BBBB"
           {| d_width := of_Z 400; d_height := of_Z 300 |}
           (of_Z 200) (of_Z 150)); vm_compute; reflexivity.
Defined.

(** ** Controller: crop, upload, and requests that outlive page events *)

Lemma resizeImage_reads P u w h : reads (trace (resizeImage P u w h)) = [].
Proof.
  unfold resizeImage. destruct (loadImage P u); [ | reflexivity].
  destruct (negb (getContext2d P w h)); reflexivity.
Qed.

Lemma processAndSetImage_reads P s u :
  reads (trace (processAndSetImage P s u)) = [].
Proof.
  unfold processAndSetImage.
  destruct (isResizingNeeded s); [ | reflexivity].
  destruct (originalDimensions s) as [od | ]; [ | reflexivity].
  destruct (targetSize s od) as [tw th].
  destruct (gt tw (of_Z 0) && gt th (of_Z 0)); [ | reflexivity].
  unfold reads. rewrite !reading_bind. simpl.
  fold (reads (trace (resizeImage P u tw th))). rewrite resizeImage_reads.
  destruct (outcome (resizeImage P u tw th)); reflexivity.
Qed.

Lemma editImageWithGemini_reads P part prompt :
  reads (trace (editImageWithGemini P part prompt)) = [].
Proof.
  destruct (truthy (API_KEY P)) eqn:Hkey.
  - rewrite (editImageWithGemini_with_key _ _ _ Hkey).
    destruct (generateContent P part prompt) as [[m | ] | parts]; reflexivity.
  - rewrite (editImageWithGemini_without_key _ _ _ Hkey). reflexivity.
Qed.

Lemma handleGenerateClick_request_reads P s :
  reads (trace (handleGenerateClick_request P s))
  = reads (trace (requestImagePart P s)).
Proof.
  unfold handleGenerateClick_request, reads.
  rewrite reading_guarded by reflexivity.
  rewrite reading_bind.
  destruct (outcome (requestImagePart P s)) as [imagePart | err];
    [ | reflexivity].
  rewrite reading_bind.
  fold (reads (trace (editImageWithGemini P imagePart (prompt s)))).
  rewrite editImageWithGemini_reads. cbn [app].
  destruct (outcome (editImageWithGemini P imagePart (prompt s)))
    as [[u | ] | ]; try apply app_nil_r.
  destruct (truthy_str u); [ | apply app_nil_r].
  fold (reads (trace (processAndSetImage P s u))).
  rewrite processAndSetImage_reads. apply app_nil_r.
Qed.

(** X16. Once a crop is applied, what a click on Generate sends is the
    crop: for a canvas drawn as [data:image/png;base64,d] the request
    carries the data [d] with the type [image/png] and the prompt, and the
    file first chosen is not read again. *)
Theorem cropped_image_is_sent :
  forall (P : Platform) (s : AppState) (c : PixelCrop) (d : string),
    completedCrop s = Some c ->
    d <> "" -> has_char "," d = false ->
    trim (prompt s) <> "" ->
    truthy (API_KEY P) = true ->
    let s' := handleApplyCrop s (Some ("data:image/png;base64," ++ d)) in
    croppedImageUrl s' = Some ("data:image/png;base64," ++ d)
    /\ calls (trace (handleGenerateClick P s'))
       = [(inlinePart d "image/png", prompt s)]
    /\ reads (trace (handleGenerateClick P s')) = [].
Proof.
  intros P s c d Hc Hd Hcomma Hprompt Hkey s'.
  apply nonblank_truthy in Hprompt.
  assert (Hcrop : croppedImageUrl s' = Some ("data:image/png;base64," ++ d)).
  { unfold s', handleApplyCrop. rewrite Hc. reflexivity. }
  assert (Hp : prompt s' = prompt s).
  { unfold s', handleApplyCrop. rewrite Hc. reflexivity. }
  assert (Hpart : requestImagePart P s'
                  = ([], Resolved (inlinePart d "image/png"))).
  { unfold requestImagePart. rewrite Hcrop. cbn [truthy_str append].
    apply (dataUrlToGenerativePart_built d "image/png");
      solve [assumption | reflexivity]. }
  assert (Hstart : handleGenerateClick_start s'
                   = ([Set_ (SetIsLoading true); Set_ (SetError None);
                       Set_ (SetEditedImage None)], Resolved true)).
  { unfold handleGenerateClick_start. rewrite Hcrop, Hp, Hprompt.
    cbn [truthy truthy_str append]. rewrite andb_false_r. reflexivity. }
  split; [exact Hcrop | split].
  - rewrite (proj1 (handleGenerateClick_calls_eq P s')).
    rewrite Hcrop, Hp, Hprompt, Hpart, Hkey. cbn [truthy truthy_str append].
    rewrite orb_true_r. reflexivity.
  - unfold handleGenerateClick, reads. rewrite reading_bind, Hstart.
    cbn [outcome trace fst snd flat_map file_read app].
    fold (reads (fst (handleGenerateClick_request P s'))).
    change (fst (handleGenerateClick_request P s'))
      with (trace (handleGenerateClick_request P s')).
    rewrite handleGenerateClick_request_reads, Hpart. reflexivity.
Qed.

Lemma cropped_image_is_sent_witness :
  calls (trace (handleGenerateClick emptyCanvasPlatform
                  (handleApplyCrop
                     (edit (CropComplete
                              {| x := of_Z 0; y := of_Z 0;
                                 c_width := of_Z 40; c_height := of_Z 30 |})
                        readyState)
                     (Some ("data:image/png;base64," ++ "CCCC")))))
  = [(inlinePart "CCCC" "image/png", "test")].
Proof.
  apply (cropped_image_is_sent emptyCanvasPlatform
           (edit (CropComplete
                    {| x := of_Z 0; y := of_Z 0;
                       c_width := of_Z 40; c_height := of_Z 30 |})
              readyState)
           {| x := of_Z 0; y := of_Z 0; c_width := of_Z 40; c_height := of_Z 30 |}
           "CCCC").
  - reflexivity.
  - discriminate.
  - reflexivity.
  - vm_compute. discriminate.
  - reflexivity.
Defined.

(** X17. Choosing a new file clears what was derived from the previous one:
    the edited image, the message, the crop and its selection, and the
    contrast goes back to 100; once the adjustment effect has run the final
    image is gone too and the download handler does nothing.  The prompt
    and the flags are left alone.  A dialog closed without a file changes
    nothing. *)
Theorem handleImageChange_clears :
  forall (P : Platform) (number_to_string : number -> string) (s : AppState)
         (file : File) (isMounted : bool),
    let s1 := handleImageChange s (Some file) in
    let s2 := after (adjustmentEffect P number_to_string s1 isMounted) s1 in
    (originalImage s2 = Some file
     /\ editedImage s2 = None /\ error s2 = None
     /\ croppedImageUrl s2 = None /\ crop s2 = None /\ completedCrop s2 = None
     /\ contrast s2 = of_Z 100
     /\ finalImage s2 = None /\ handleDownload s2 = None)
    /\ (prompt s2 = prompt s
        /\ isLoading s2 = isLoading s /\ isEnhancing s2 = isEnhancing s)
    /\ handleImageChange s None = s.
Proof.
  intros P nts s file isMounted. simpl. repeat split.
Qed.

Lemma settle_result_from_clear P (r : Request) (s1 s2 : AppState) :
  editedImage s1 = None -> error s1 = None ->
  editedImage s2 = None -> error s2 = None ->
  editedImage (settle P r s1) = editedImage (settle P r s2)
  /\ error (settle P r s1) = error (settle P r s2).
Proof.
  intros He1 Hr1 He2 Hr2. destruct r as [cl | cl]; unfold settle.
  - rewrite !run_sets_fold.
    destruct (handleGenerateClick_request_sets P cl)
      as [(v & ->) | (m & _ & ->)]; simpl; auto; split; congruence.
  - rewrite !run_sets_fold.
    destruct (handleEnhanceClick_request_sets P cl)
      as [(v & ->) | (m & _ & ->)]; simpl; auto; split; congruence.
Qed.

(** X18. A request is not cancelled by what happens on the page while it
    is in flight: whatever event comes in between, a new upload included,
    the edited image or the message it leaves when it settles is the one it
    would have left at once; after a new upload the edited image of the
    previous file is thus stored beside the new file. *)
Theorem request_outlives_page_events :
  forall (c : Controller) (r : Request) (P : Platform) (e : Edit),
    reachable c ->
    inflight c = [r] ->
    editedImage (settle P r (edit e (state c)))
    = editedImage (settle P r (state c))
    /\ error (settle P r (edit e (state c))) = error (settle P r (state c))
    /\ forall file,
         e = ImageChange (Some file) ->
         originalImage (settle P r (edit e (state c))) = Some file.
Proof.
  intros c r P e Hreach Hin.
  pose proof (reachable_result_consistent c Hreach) as Hinv.
  unfold result_consistent in Hinv. rewrite Hin in Hinv.
  destruct Hinv as [He Hr].
  assert (Hedit : editedImage (edit e (state c)) = None
                  /\ error (edit e (state c)) = None).
  { destruct (edit_keeps_result e (state c)) as [[-> ->] | H]; auto. }
  destruct Hedit as [He' Hr'].
  destruct (settle_result_from_clear P r _ _ He' Hr' He Hr) as [H1 H2].
  split; [exact H1 | split; [exact H2 | ]].
  intros file ->. destruct r as [cl | cl]; unfold settle; rewrite run_sets_fold.
  - destruct (handleGenerateClick_request_sets P cl)
      as [(v & ->) | (m & _ & ->)]; reflexivity.
  - destruct (handleEnhanceClick_request_sets P cl)
      as [(v & ->) | (m & _ & ->)]; reflexivity.
Qed.

Lemma request_outlives_page_events_witness :
  editedImage (settle emptyCanvasPlatform (GenerateRequest readyState)
                 (edit (ImageChange (Some {| file_name := "other.jpg";
                                             file_type := "image/jpeg" |}))
                    (state generatingController)))
  = editedImage (settle emptyCanvasPlatform (GenerateRequest readyState)
                   (state generatingController)).
Proof.
  apply (request_outlives_page_events generatingController
           (GenerateRequest readyState) emptyCanvasPlatform
           (ImageChange (Some {| file_name := "other.jpg";
                                 file_type := "image/jpeg" |}))
           generatingController_reachable).
  vm_compute. reflexivity.
Defined.

(** X19. Resetting a crop puts the whole file back in the request, and the
    image is measured again; but the completed selection is kept, and the
    size the resize computations start from stays the size of the crop. *)
Theorem handleResetCrop_keeps_crop_size :
  forall (P : Platform) (s : AppState) (file : File) (c : PixelCrop)
         (drawn : string) (w h : number),
    originalImage s = Some file ->
    completedCrop s = Some c ->
    let s' := handleResetCrop_onload
                (handleResetCrop (handleApplyCrop s (Some drawn))) w h in
    requestImagePart P s' = fileToGenerativePart P file
    /\ originalDimensions s' = Some {| d_width := w; d_height := h |}
    /\ sourceDims s' = Some (crop_dimensions c)
    /\ sourceWidth s' {| d_width := w; d_height := h |} = c_width c
    /\ sourceHeight s' {| d_width := w; d_height := h |} = c_height c.
Proof.
  intros P s file c drawn w h Himg Hc s'.
  assert (E : s' = set_originalDimensions (Some {| d_width := w; d_height := h |})
                    (set_croppedImageUrl None
                       (set_isCropModalOpen false
                          (set_resizeOptions
                             (resetSize (resizeOptions s) (c_width c) (c_height c))
                             (set_originalDimensions (Some (crop_dimensions c))
                                (set_croppedImageUrl (Some drawn) s)))))).
  { unfold s', handleApplyCrop. rewrite Hc. reflexivity. }
  rewrite E. unfold requestImagePart, sourceDims, sourceWidth, sourceHeight.
  simpl. rewrite Himg, Hc. repeat split.
Qed.

Lemma handleResetCrop_keeps_crop_size_witness :
  sourceDims
    (handleResetCrop_onload
       (handleResetCrop
          (handleApplyCrop
             (edit (CropComplete
                      {| x := of_Z 0; y := of_Z 0;
                         c_width := of_Z 40; c_height := of_Z 30 |})
                readyState)
             (Some "data:image/png;base64,CCCC")))
       (of_Z 400) (of_Z 300))
  = Some {| d_width := of_Z 40; d_height := of_Z 30 |}.
Proof.
  apply (handleResetCrop_keeps_crop_size emptyCanvasPlatform
           (edit (CropComplete
                    {| x := of_Z 0; y := of_Z 0;
                       c_width := of_Z 40; c_height := of_Z 30 |})
              readyState)
           sampleFile
           {| x := of_Z 0; y := of_Z 0; c_width := of_Z 40; c_height := of_Z 30 |}
           "data:image/png;base64,CCCC" (of_Z 400) (of_Z 300));
    reflexivity.
Defined.

(** X20. Once the source is decoded and the canvas gives a context,
    [applyCanvasFilter] draws on a canvas of the size of the decoded image,
    with the filter it was given, and encodes it once: as [image/jpeg] when
    the URL begins with [data:image/jpeg], as [image/png] otherwise. *)
Theorem applyCanvasFilter_preserves_format :
  forall (P : Platform) (imageUrl filter : string) (w h : number),
    loadImage P imageUrl = Some (w, h) ->
    getContext2d P w h = true ->
    let canvas := filterCanvas imageUrl filter w h in
    (startsWith imageUrl "data:image/jpeg" = true ->
     applyCanvasFilter P imageUrl filter
     = ([CallToDataURL canvas "image/jpeg"],
        Resolved (toDataURL P canvas "image/jpeg")))
    /\ (startsWith imageUrl "data:image/jpeg" = false ->
        applyCanvasFilter P imageUrl filter
        = ([CallToDataURL canvas "image/png"],
           Resolved (toDataURL P canvas "image/png")))
    /\ canvas_width canvas = w /\ canvas_height canvas = h
    /\ canvas_filter canvas = Some filter.
Proof.
  intros P imageUrl filter w h Hload Hctx canvas.
  unfold applyCanvasFilter, canvas_mime. rewrite Hload, Hctx.
  split; [intros ->; reflexivity | split; [intros ->; reflexivity | ]].
  repeat split.
Qed.

Lemma applyCanvasFilter_preserves_format_witness :
  outcome (applyCanvasFilter emptyCanvasPlatform "data:image/jpeg;base64,AAAA"
             "contrast(150%)")
  = Resolved "data:image/jpeg;base64,AAAA".
Proof.
  rewrite (proj1 (applyCanvasFilter_preserves_format emptyCanvasPlatform
                    "data:image/jpeg;base64,AAAA" "contrast(150%)"
                    (of_Z 4) (of_Z 3) eq_refl eq_refl) eq_refl).
  reflexivity.
Defined.

(** X21. Without a credential, a click on Generate that got as far as an
    image part ends with the configuration error in [error], no edited
    image and [isLoading] false; no client was built and nothing was sent. *)
Theorem handleGenerateClick_missing_key :
  forall (P : Platform) (s : AppState) (imagePart : Part),
    isSome (originalImage s) || truthy (croppedImageUrl s) = true ->
    trim (prompt s) <> "" ->
    outcome (requestImagePart P s) = Resolved imagePart ->
    truthy (API_KEY P) = false ->
    error (after (handleGenerateClick P s) s)
    = Some "API key is not configured. Please set the API_KEY environment variable."
    /\ editedImage (after (handleGenerateClick P s) s) = None
    /\ isLoading (after (handleGenerateClick P s) s) = false
    /\ clients (trace (handleGenerateClick P s)) = []
    /\ calls (trace (handleGenerateClick P s)) = [].
Proof.
  intros P s imagePart Himg Hprompt Hpart Hkey.
  apply nonblank_truthy in Hprompt.
  assert (Hstart : handleGenerateClick_start s
                   = ([Set_ (SetIsLoading true); Set_ (SetError None);
                       Set_ (SetEditedImage None)], Resolved true)).
  { unfold handleGenerateClick_start. rewrite Hprompt.
    destruct (isSome (originalImage s)), (truthy (croppedImageUrl s));
      try discriminate Himg; reflexivity. }
  pose proof (requestImagePart_quiet P s) as Hquiet.
  assert (Hclients : clients (trace (requestImagePart P s)) = []).
  { unfold requestImagePart, fileToGenerativePart, dataUrlToGenerativePart.
    destruct (croppedImageUrl s) as [u | ], (originalImage s) as [file | ];
      try destruct (truthy_str u); try reflexivity;
      try (destruct (negb (truthy (index1 (split "," u)))); reflexivity);
      destruct (readAsDataURL P file) as [d | ]; try reflexivity;
      destruct (truthy (index1 (split "," d))); reflexivity. }
  assert (E : handleGenerateClick P s
              = (([Set_ (SetIsLoading true); Set_ (SetError None);
                   Set_ (SetEditedImage None)]
                  ++ trace (requestImagePart P s)
                  ++ [ConsoleError;
                      Set_ (SetError (Some (shown configuration_error)));
                      Set_ (SetIsLoading false)])%list,
                 Resolved tt)).
  { unfold handleGenerateClick, handleGenerateClick_request.
    rewrite Hstart. unfold quiet in Hquiet.
    destruct (requestImagePart P s) as [t o]. cbn [outcome snd] in Hpart.
    subst o. cbn [bind trace fst].
    rewrite (editImageWithGemini_without_key _ _ _ Hkey).
    cbn. rewrite app_nil_r, <- app_assoc. reflexivity. }
  unfold after. rewrite E. cbn [trace fst].
  rewrite !run_sets_app, (run_sets_fold (trace (requestImagePart P s))).
  unfold clients, calls. rewrite !flat_map_app.
  fold (clients (trace (requestImagePart P s))).
  fold (calls (trace (requestImagePart P s))).
  unfold quiet in Hquiet.
  rewrite Hquiet, Hclients, requestImagePart_calls.
  repeat split.
Qed.

Lemma handleGenerateClick_missing_key_witness :
  clients (trace (handleGenerateClick noKeyPlatform readyState)) = [].
Proof.
  apply (handleGenerateClick_missing_key noKeyPlatform readyState
           (inlinePart "AAAA" "image/png")).
  - reflexivity.
  - vm_compute. discriminate.
  - reflexivity.
  - reflexivity.
Defined.
